(** * Guro: a model of the learning app's progress store, unlock policy,
    level selection, feedback handling and structural validators.

    Sources:
    - [src/unnamed/part_000]: [App] (progress store, save/load,
      highest-unlocked level, [selectLevel], [completeLevel],
      [updateTaskProgress]);
    - [src/Footer.tsx]: [LevelView.handleCodeChange];
    - [src/unnamed/part_004]: [validateHTMLStructure],
      [validateCSSProperties] and the [LEVELS] catalog;
    - [src/types.ts]: the data types. *)

From Stdlib Require Import String Ascii ZArith List Bool Lia.
From stdpp Require Import base gmap strings list fin_maps.
Import ListNotations.
Open Scope string_scope.
Set Warnings "-register-all".

(* ================================================================== *)
(** ** Data model ([src/types.ts]) *)
(* ================================================================== *)

(** [interface ProjectCode { html?: string; css?: string; js?: string }];
    an absent (undefined) field is [None]. *)
Record ProjectCode := mkProjectCode {
  html : option string;
  css : option string;
  js : option string
}.

Definition emptyProjectCode : ProjectCode := mkProjectCode None None None.

(** [interface ValidationResult]. *)
Record ValidationResult := mkValidationResult {
  success : bool;
  message : string;
  updatedProjectCode : option ProjectCode
}.

(** A task; only its identifier matters for the store ([Task.id]). *)
Record Task := mkTask { task_id : string }.

(** [interface Level]; [unlocksNextLevel?: string | null] is an option
    ([None] for both [undefined] and [null]). *)
Record Level := mkLevel {
  id : string;
  title : string;
  tasks : list Task;
  unlocksNextLevel : option string
}.

(** One entry of [UserProgress]; the JS [Set<string>] is a [gset string]. *)
Record LevelProgress := mkLevelProgress {
  completedTasks : gset string;
  currentProjectCode : ProjectCode;
  isCompleted : bool
}.

(** [UserProgress] is a JS object keyed by level id. *)
Abbreviation UserProgress := (gmap string LevelProgress).

(** [type AppView = 'level_selector' | 'level_view']. *)
Inductive AppView := level_selector | level_view.

(* ================================================================== *)
(** ** JS helpers *)
(* ================================================================== *)

(** Truthiness of an optional string ([undefined], [null] and [""] are
    falsy). *)
Definition truthy_str (o : option string) : bool :=
  match o with Some s => negb (String.eqb s "") | None => false end.

(** [arr.find(l => l.id === x)]. *)
Definition find_level (LEVELS : list Level) (x : string) : option Level :=
  find (fun l => String.eqb (id l) x) LEVELS.

(** [arr.findIndex(l => l.id === x)], [-1] when absent. *)
Fixpoint findIndex_level (LEVELS : list Level) (x : string) : Z :=
  match LEVELS with
  | [] => (-1)%Z
  | l :: r =>
      if String.eqb (id l) x then 0%Z
      else let i := findIndex_level r x in
           if (i <? 0)%Z then (-1)%Z else (i + 1)%Z
  end.

(** [arr[i]] for a number index ([undefined] out of range). *)
Definition at_index {A} (l : list A) (i : Z) : option A :=
  if (i <? 0)%Z then None else nth_error l (Z.to_nat i).

(** [userProgress[levelId]?.isCompleted] read as a boolean. *)
Definition completed (up : UserProgress) (lid : string) : bool :=
  match up !! lid with Some p => isCompleted p | None => false end.

(* ================================================================== *)
(** ** Progress store mutations ([App], part_000 lines 120-163) *)
(* ================================================================== *)

(** The [setUserProgress] updater of [completeLevel]. The fallback
    [{ completedTasks: new Set(), currentProjectCode: {} }] has its
    [isCompleted] overwritten by [true]. *)
Definition completeLevel_progress (levelId : string)
    (finalProjectCode : option ProjectCode) (prev : UserProgress) : UserProgress :=
  let base := match prev !! levelId with
              | Some p => p
              | None => mkLevelProgress ∅ emptyProjectCode false
              end in
  <[levelId := mkLevelProgress (completedTasks base)
       (match finalProjectCode with
        | Some pc => pc
        | None => match prev !! levelId with
                  | Some p => currentProjectCode p
                  | None => emptyProjectCode
                  end
        end) true]> prev.

(** The [setUserProgress] updater of [updateTaskProgress]. *)
Definition updateTaskProgress_progress (LEVELS : list Level) (levelId taskId : string)
    (projectCodeUpdate : option ProjectCode) (prev : UserProgress) : UserProgress :=
  let currentLevelProgress :=
    match prev !! levelId with
    | Some p => p
    | None => mkLevelProgress ∅ emptyProjectCode false
    end in
  let newCompletedTasks := {[taskId]} ∪ completedTasks currentLevelProgress in
  let updatedLevelData :=
    mkLevelProgress newCompletedTasks
      (match projectCodeUpdate with
       | Some pc => pc
       | None => currentProjectCode currentLevelProgress
       end)
      (isCompleted currentLevelProgress) in
  let updatedLevelData :=
    match find_level LEVELS levelId with
    | Some levelDefinition =>
        if Nat.eqb (size newCompletedTasks) (length (tasks levelDefinition))
        then mkLevelProgress (completedTasks updatedLevelData)
               (currentProjectCode updatedLevelData) true
        else updatedLevelData
    | None => updatedLevelData
    end in
  <[levelId := updatedLevelData]> prev.

(** The two mutations of the store, as one step relation. *)
Inductive mutation (LEVELS : list Level) : UserProgress -> UserProgress -> Prop :=
| mut_task lid tid pc up :
    mutation LEVELS up (updateTaskProgress_progress LEVELS lid tid pc up)
| mut_level lid pc up :
    mutation LEVELS up (completeLevel_progress lid pc up).

(* ================================================================== *)
(** ** Highest unlocked level ([App] effect, part_000 lines 44-96) *)
(* ================================================================== *)

(** The inner [for (let i = 0; ...)] scan for the first uncompleted level;
    [cur] is the value of [maxUnlocked] before the scan. *)
Fixpoint first_uncompleted_scan (up : UserProgress) (ls : list Level) (cur : string) : string :=
  match ls with
  | [] => cur
  | l :: r =>
      if negb (completed up (id l)) then id l
      else match r with
           | [] => id l  (* i === LEVELS.length - 1 *)
           | _ => first_uncompleted_scan up r cur
           end
  end.

(** The [for (const level of LEVELS)] loop. Returns the final
    [maxUnlocked] and [allLevelsCompleted]. *)
Fixpoint unlock_loop (LEVELS : list Level) (up : UserProgress)
    (ls : list Level) (maxUnlocked : string) : string * bool :=
  match ls with
  | [] => (maxUnlocked, true)
  | level :: rest =>
      if completed up (id level) then
        let nextLevel :=
          match unlocksNextLevel level with
          | Some n => find_level LEVELS n
          | None => None
          end in
        let maxUnlocked' :=
          match nextLevel with
          | Some nl => id nl
          | None => if negb (truthy_str (unlocksNextLevel level)) then id level
                    else maxUnlocked
          end in
        unlock_loop LEVELS up rest maxUnlocked'
      else
        let levelIndex := findIndex_level LEVELS (id level) in
        let maxUnlocked' :=
          if (levelIndex =? 0)%Z then id level
          else match at_index LEVELS (levelIndex - 1) with
               | Some prevLevel =>
                   if completed up (id prevLevel) then id level
                   else first_uncompleted_scan up LEVELS maxUnlocked
               | None => maxUnlocked (* unreachable: [level] is drawn from [LEVELS] *)
               end in
        (maxUnlocked', false)
  end.

(** The value passed to [setHighestLevelUnlocked]. *)
Definition highestLevelUnlocked_of (LEVELS : list Level) (up : UserProgress) : string :=
  match LEVELS with
  | [] => "1"
  | _ :: _ =>
      let '(maxUnlocked, allLevelsCompleted) := unlock_loop LEVELS up LEVELS "1" in
      if allLevelsCompleted then
        match last LEVELS with Some l => id l | None => "1" end
      else maxUnlocked
  end.

(** The unlock policy in the words of the spec: walking the catalog, a
    level is reached when it is the first one or its predecessor is
    completed; the answer is the first reached, uncompleted level, else
    the last level. *)
Fixpoint reached_walk (up : UserProgress) (prev_done : bool) (ls : list Level) : option Level :=
  match ls with
  | [] => None
  | l :: r =>
      if prev_done && negb (completed up (id l)) then Some l
      else reached_walk up (completed up (id l)) r
  end.

Definition spec_highest_unlocked (LEVELS : list Level) (up : UserProgress) : option Level :=
  match reached_walk up true LEVELS with
  | Some l => Some l
  | None => last LEVELS
  end.

(* ================================================================== *)
(** ** Application state and level selection *)
(* ================================================================== *)

Record AppState := mkAppState {
  currentView : AppView;
  currentLevelId : option string;
  userProgress : UserProgress;
  highestLevelUnlocked : string
}.

(** The double-quote character. *)
Definition dq : string := String (ascii_of_nat 34) EmptyString.

(** [selectLevel]: the new state and the [alert] text, if any. [None]
    is a thrown [TypeError] (reading [.title] of [undefined]). *)
Definition selectLevel (LEVELS : list Level) (levelId : string) (st : AppState)
    : option (AppState * option string) :=
  match find_level LEVELS levelId with
  | None => Some (st, None)
  | Some _ =>
      let levelIndex := findIndex_level LEVELS levelId in
      let highestUnlockedIndex := findIndex_level LEVELS (highestLevelUnlocked st) in
      if (levelIndex <=? highestUnlockedIndex)%Z then
        Some (mkAppState level_view (Some levelId) (userProgress st)
                (highestLevelUnlocked st), None)
      else if (highestUnlockedIndex + 1 <? Z.of_nat (length LEVELS))%Z then
        match at_index LEVELS highestUnlockedIndex,
              at_index LEVELS (highestUnlockedIndex + 1) with
        | Some a, Some b =>
            Some (st, Some ("Please complete " ++ dq ++ title a ++ dq ++
                            " to unlock " ++ dq ++ title b ++ dq ++ "."))
        | _, _ => None
        end
      else Some (st, Some "Complete previous levels to unlock this one!")
  end.

(* ================================================================== *)
(** ** LevelView feedback ([src/Footer.tsx] lines 129-136) *)
(* ================================================================== *)

Record LevelViewState := mkLevelViewState {
  userCode : string;
  feedback : option ValidationResult
}.

(** [handleCodeChange]. *)
Definition handleCodeChange (newCode : string) (st : LevelViewState) : LevelViewState :=
  let st := mkLevelViewState newCode (feedback st) in
  match feedback st with
  | Some r => if success r then st else mkLevelViewState newCode None
  | None => mkLevelViewState newCode None
  end.

(* ================================================================== *)
(** ** Saving and loading the store (part_000 lines 12-42) *)
(* ================================================================== *)

(** JSON values. The text layer ([JSON.stringify] then [JSON.parse]) is
    taken at the value level: parsing the printed text of a value made of
    strings, booleans, arrays and objects gives that value back. *)
Inductive json :=
| JNull
| JBool (b : bool)
| JNum (z : Z)
| JStr (s : string)
| JArr (l : list json)
| JObj (fields : list (string * json)).

(** JS truthiness of a parsed value. *)
Definition truthy (v : json) : bool :=
  match v with
  | JNull => false
  | JBool b => b
  | JNum z => negb (Z.eqb z 0)
  | JStr s => negb (String.eqb s "")
  | JArr _ | JObj _ => true
  end.

(** Property read on a parsed object: [JSON.parse] keeps the last of
    duplicated keys. *)
Fixpoint jget (k : string) (fields : list (string * json)) : option json :=
  match fields with
  | [] => None
  | (k', v) :: r =>
      match jget k r with
      | Some w => Some w
      | None => if String.eqb k k' then Some v else None
      end
  end.

(** [JSON.stringify] with the replacer turning a [Set] into
    [Array.from(set)]; [undefined] fields are dropped. *)
Definition opt_field (k : string) (o : option string) : list (string * json) :=
  match o with Some s => [(k, JStr s)] | None => [] end.

Definition projectCode_to_json (pc : ProjectCode) : json :=
  JObj (opt_field "html" (html pc) ++ opt_field "css" (css pc) ++ opt_field "js" (js pc)).

Definition levelProgress_to_json (p : LevelProgress) : json :=
  JObj [("completedTasks", JArr (map JStr (elements (completedTasks p))));
        ("currentProjectCode", projectCode_to_json (currentProjectCode p));
        ("isCompleted", JBool (isCompleted p))].

Definition save (up : UserProgress) : json :=
  JObj (map (fun kv => (kv.1, levelProgress_to_json kv.2)) (map_to_list up)).

(** [new Set(array)] over the task-id strings of the array; elements of
    other types lie outside the [Set<string>] of [UserProgress]. *)
Fixpoint json_strings (l : list json) : list string :=
  match l with
  | [] => []
  | JStr s :: r => s :: json_strings r
  | _ :: r => json_strings r
  end.

(** The restoration of [completedTasks]: an array becomes a [Set]
    (duplicates collapsed); any other value, or a missing field, becomes
    [new Set()]. *)
Definition restore_completedTasks (o : option json) : gset string :=
  match o with
  | Some (JArr a) => list_to_set (json_strings a)
  | _ => ∅
  end.

Definition json_opt_string (o : option json) : option string :=
  match o with Some (JStr s) => Some s | _ => None end.

Definition restore_projectCode (o : option json) : ProjectCode :=
  match o with
  | Some (JObj f) =>
      mkProjectCode (json_opt_string (jget "html" f))
        (json_opt_string (jget "css" f)) (json_opt_string (jget "js" f))
  | _ => emptyProjectCode
  end.

(** One entry of the parsed object ([JSON.parse] has already dropped the
    earlier copies of a duplicated key). Entries that are not objects make the
    restoration throw ([None]). *)
Definition restore_entry (v : json) : option LevelProgress :=
  match v with
  | JObj f =>
      Some (mkLevelProgress (restore_completedTasks (jget "completedTasks" f))
              (restore_projectCode (jget "currentProjectCode" f))
              (match jget "isCompleted" f with Some b => truthy b | None => false end))
  | _ => None
  end.

Fixpoint restore_entries (fields : list (string * json)) : option UserProgress :=
  match fields with
  | [] => Some ∅
  | (k, v) :: r =>
      match jget k r with
      | Some _ => restore_entries r
      | None =>
          match restore_entry v, restore_entries r with
          | Some p, Some m => Some (<[k := p]> m)
          | _, _ => None
          end
      end
  end.

(** The [useState] initializer reading the saved value. *)
Definition load (saved : json) : option UserProgress :=
  match saved with
  | JObj fields => restore_entries fields
  | _ => None
  end.

(* ================================================================== *)
(** ** String helpers of the validators *)
(* ================================================================== *)

(** [s.startsWith(p)]. *)
Fixpoint starts_with (p s : string) : bool :=
  match p, s with
  | EmptyString, _ => true
  | String a p', String b s' => Ascii.eqb a b && starts_with p' s'
  | _, _ => false
  end.

(** [s.includes(p)]. *)
Fixpoint includes (s p : string) : bool :=
  starts_with p s ||
  match s with EmptyString => false | String _ s' => includes s' p end.

(** Decimal digits of a non-negative number; JS numbers have at most
    17 significant digits, which the fuel of 32 covers. *)
Fixpoint digits_of (fuel : nat) (n : Z) (acc : string) : string :=
  match fuel with
  | O => acc
  | S f =>
      let acc' := String (ascii_of_nat (48 + Z.to_nat (n mod 10))) acc in
      if (n <? 10)%Z then acc' else digits_of f (n / 10) acc'
  end.

(** [`${n}`] for an integral number. *)
Definition string_of_Z (n : Z) : string :=
  if (n <? 0)%Z then "-" ++ digits_of 32 (- n) "" else digits_of 32 n "".

(** JS white space among the ASCII characters ([\s], and what [trim]
    removes): tab, line feed, vertical tab, form feed, carriage return,
    space. *)
Definition is_space (c : ascii) : bool :=
  let n := nat_of_ascii c in
  (Nat.leb 9 n && Nat.leb n 13) || Nat.eqb n 32.

Definition is_letter (c : ascii) : bool :=
  let n := nat_of_ascii c in
  (Nat.leb 65 n && Nat.leb n 90) || (Nat.leb 97 n && Nat.leb n 122).

Definition is_digit (c : ascii) : bool :=
  let n := nat_of_ascii c in Nat.leb 48 n && Nat.leb n 57.

(** [toLowerCase] on ASCII. *)
Definition lower_ascii (c : ascii) : ascii :=
  let n := nat_of_ascii c in
  if Nat.leb 65 n && Nat.leb n 90 then ascii_of_nat (n + 32) else c.

Fixpoint toLowerCase (s : string) : string :=
  match s with
  | EmptyString => EmptyString
  | String c s' => String (lower_ascii c) (toLowerCase s')
  end.

Fixpoint trim_start (s : string) : string :=
  match s with
  | String c s' => if is_space c then trim_start s' else s
  | EmptyString => EmptyString
  end.

Fixpoint trim_end (s : string) : string :=
  match s with
  | EmptyString => EmptyString
  | String c s' =>
      let r := trim_end s' in
      if is_space c && String.eqb r "" then EmptyString else String c r
  end.

(** [String.prototype.trim]. *)
Definition trim (s : string) : string := trim_end (trim_start s).

(* ================================================================== *)
(** ** [validateHTMLStructure] (part_004 lines 5-64) *)
(* ================================================================== *)

Section HTMLValidator.

(** The DOM as the validator uses it: [DOMParser.parseFromString],
    [querySelectorAll] (which throws a [SyntaxError] on a selector it
    cannot parse: [inl] carries the error's [message]), [textContent],
    [getAttribute] ([null] is [None]) and [RegExp.prototype.test]. *)
Variables (Doc Elem RegExp : Type).
Variable parseFromString : string -> Doc.
Variable querySelectorAll : Doc -> string -> string + list Elem.
Variable textContent : Elem -> string.
Variable getAttribute : Elem -> string -> option string.
Variable test : RegExp -> string -> bool.

(** [string | RegExp]. *)
Inductive Pattern :=
| PStr (s : string)
| PRe (r : RegExp).

(** One expected element; [attributes] lists the keys of the record in
    iteration order. *)
Record Expectation := mkExpectation {
  tag : string;
  text : option Pattern;
  attributes : option (list (string * Pattern));
  count : option Z;
  parentSelector : option string
}.

Definition failure (m : string) : ValidationResult := mkValidationResult false m None.

Definition inside (el : Expectation) : string :=
  match parentSelector el with
  | Some p => if truthy_str (Some p) then " inside " ++ p else ""
  | None => ""
  end.

Definition selector_of (el : Expectation) : string :=
  match parentSelector el with
  | Some p => if truthy_str (Some p) then p ++ " > " ++ tag el else tag el
  | None => tag el
  end.

(** [!el.count]: [undefined] or [0]. *)
Definition count_falsy (el : Expectation) : bool :=
  match count el with None => true | Some c => Z.eqb c 0 end.

Definition null_or (o : option string) : string :=
  match o with Some s => s | None => "null" end.

(** The [if (el.text)] check on the first element. *)
Definition check_text (el : Expectation) (firstElement : Elem) : option string :=
  let textContent := textContent firstElement in
  match text el with
  | Some (PRe r) =>
      if test r textContent then None
      else Some ("<" ++ tag el ++ "> element text does not match pattern. Found: " ++
                 dq ++ textContent ++ dq)
  | Some (PStr s) =>
      if String.eqb s "" then None
      else if includes textContent s then None
      else Some ("<" ++ tag el ++ "> element should contain text: " ++ dq ++ s ++ dq ++
                 ". Found: " ++ dq ++ textContent ++ dq)
  | None => None
  end.

(** The [for (const attr in el.attributes)] loop on the first element. *)
Fixpoint check_attributes (el : Expectation) (firstElement : Elem)
    (attrs : list (string * Pattern)) : option string :=
  match attrs with
  | [] => None
  | (attr, expectedValue) :: rest =>
      let actualValue := getAttribute firstElement attr in
      match expectedValue with
      | PRe r =>
          match actualValue with
          | Some v => if test r v then check_attributes el firstElement rest
                      else Some ("<" ++ tag el ++ "> element attribute '" ++ attr ++
                                 "' value " ++ dq ++ v ++ dq ++ " does not match pattern.")
          | None => Some ("<" ++ tag el ++ "> element attribute '" ++ attr ++
                          "' value " ++ dq ++ "null" ++ dq ++ " does not match pattern.")
          end
      | PStr s =>
          if match actualValue with Some v => String.eqb v s | None => false end
          then check_attributes el firstElement rest
          else Some ("<" ++ tag el ++ "> element attribute '" ++ attr ++ "' should be '" ++
                     s ++ "'. Found '" ++ null_or actualValue ++ "'.")
      end
  end.

(** The first failure of two checks run in order. *)
Definition first_failure (a b : option string) : option string :=
  match a with Some m => Some m | None => b end.

(** The body of the [for (const el of expectedElements)] loop once the
    elements are selected: [None] to go on, [Some message] to fail. *)
Definition check_elements (el : Expectation) (elements : list Elem) : option string :=
  let n := Z.of_nat (length elements) in
  first_failure
    (match count el with
     | Some c => if negb (Z.eqb n c) then
                   Some ("Expected " ++ string_of_Z c ++ " <" ++ tag el ++ "> element(s)" ++
                         inside el ++ ", but found " ++ string_of_Z n ++ ".")
                 else None
     | None => None
     end)
  (first_failure
    (if count_falsy el && Z.eqb n 0 && negb (String.eqb (tag el) "!--")
     then Some ("Missing <" ++ tag el ++ "> element" ++ inside el ++ ".")
     else None)
    (match elements with
     | firstElement :: _ =>
         first_failure (check_text el firstElement)
           (match attributes el with
            | Some attrs => check_attributes el firstElement attrs
            | None => None
            end)
     | [] => None
     end)).

(** One expectation against the parsed document: [inl] is an exception. *)
Definition check_el (doc : Doc) (el : Expectation) : string + option string :=
  match querySelectorAll doc (selector_of el) with
  | inl e => inl e
  | inr elements => inr (check_elements el elements)
  end.

Fixpoint html_loop (doc : Doc) (expectedElements : list Expectation)
    : string + ValidationResult :=
  match expectedElements with
  | [] => inr (mkValidationResult true "HTML structure looks good!" None)
  | el :: rest =>
      match check_el doc el with
      | inl e => inl e
      | inr (Some m) => inr (failure m)
      | inr None => html_loop doc rest
      end
  end.

Definition validateHTMLStructure (code : string) (expectedElements : list Expectation)
    : ValidationResult :=
  let doc := parseFromString code in
  match html_loop doc expectedElements with
  | inl e => failure ("Error parsing HTML: " ++ e)
  | inr r => r
  end.

End HTMLValidator.

Arguments PStr {RegExp}.
Arguments PRe {RegExp}.
Arguments mkExpectation {RegExp}.

(* ================================================================== *)
(** ** [validateCSSProperties] (part_004 lines 67-116) *)
(* ================================================================== *)

(** First position of [sub] in [s]. *)
Fixpoint first_index (s sub : string) : option nat :=
  if starts_with sub s then Some 0
  else match s with
       | EmptyString => None
       | String _ s' => option_map S (first_index s' sub)
       end.

(** [s.indexOf(sub, pos)]. *)
Definition indexOf (s sub : string) (pos : Z) : Z :=
  let p := Z.to_nat (Z.max 0 pos) in
  match first_index (substring p (String.length s - p) s) sub with
  | Some k => Z.of_nat (p + k)
  | None => (-1)%Z
  end.

(** [s.substring(a, b)] for in-range [a] and [b]. *)
Definition js_substring (s : string) (a b : Z) : string :=
  let lo := Z.to_nat (Z.min a b) in
  let hi := Z.to_nat (Z.max a b) in
  substring lo (hi - lo) s.

(** Splits the leading [\s*]. *)
Fixpoint span_space (s : string) : string * string :=
  match s with
  | String c s' => if is_space c then let '(w, r) := span_space s' in (String c w, r)
                   else (EmptyString, s)
  | EmptyString => (EmptyString, EmptyString)
  end.

(** [[^;]*] from the start of [s]. *)
Fixpoint up_to_semicolon (s : string) : string :=
  match s with
  | String c s' => if Ascii.eqb c ";" then EmptyString else String c (up_to_semicolon s')
  | EmptyString => EmptyString
  end.

Fixpoint last_char (s : string) : option ascii :=
  match s with
  | String c EmptyString => Some c
  | String _ s' => last_char s'
  | EmptyString => None
  end.

(** [\s*:\s*([^;]+)] at the start of [s], with its capture. The greedy
    [\s*] gives back its last character when [[^;]+] finds nothing after
    it. *)
Definition match_after_name (s : string) : option string :=
  let '(_, r1) := span_space s in
  match r1 with
  | String c r2 =>
      if Ascii.eqb c ":" then
        let '(w2, r3) := span_space r2 in
        let cap := up_to_semicolon r3 in
        if String.eqb cap "" then
          match last_char w2 with Some c' => Some (String c' EmptyString) | None => None end
        else Some cap
      else None
  | EmptyString => None
  end.

(** [ruleContent.match(new RegExp(`${prop}\\s*:\\s*([^;]+)`))], the
    leftmost match and its group 1; CSS property names hold no regular
    expression metacharacters, so [prop] matches itself. *)
Fixpoint match_prop (prop content : string) : option string :=
  match (if starts_with prop content
         then match_after_name (substring (String.length prop)
                                  (String.length content - String.length prop) content)
         else None) with
  | Some cap => Some cap
  | None => match content with
            | EmptyString => None
            | String _ content' => match_prop prop content'
            end
  end.

Section CSSValidator.

(** [RegExp.prototype.test] and [RegExp.prototype.source]. *)
Variable RegExp : Type.
Variable test : RegExp -> string -> bool.
Variable source : RegExp -> string.

Record StyleExpectation := mkStyleExpectation {
  selector : string;
  properties : list (string * Pattern RegExp)
}.

(** The [for (const prop in style.properties)] loop. *)
Fixpoint check_properties (sel ruleContent : string)
    (props : list (string * Pattern RegExp)) : option string :=
  match props with
  | [] => None
  | (prop, value) :: rest =>
      match match_prop prop ruleContent with
      | None => Some ("Property '" ++ prop ++ "' not found for selector '" ++ sel ++ "'.")
      | Some cap =>
          let actualValue := trim cap in
          match value with
          | PRe r =>
              if test r actualValue then check_properties sel ruleContent rest
              else Some ("Property '" ++ prop ++ "' for '" ++ sel ++ "' has value '" ++
                         actualValue ++ "', which does not match pattern '" ++ source r ++ "'.")
          | PStr v =>
              if String.eqb (toLowerCase actualValue) (toLowerCase v)
              then check_properties sel ruleContent rest
              else Some ("Property '" ++ prop ++ "' for '" ++ sel ++ "' should be '" ++ v ++
                         "', but found '" ++ actualValue ++ "'.")
          end
      end
  end.

(** One [style] of the outer loop: [None] to go on. *)
Definition check_style (code : string) (style : StyleExpectation) : option string :=
  let selectorIndex := indexOf code (selector style) 0 in
  if (selectorIndex =? -1)%Z then
    Some ("CSS rule for selector '" ++ selector style ++ "' not found.")
  else
    let ruleStartIndex := indexOf code "{" selectorIndex in
    let ruleEndIndex := indexOf code "}" ruleStartIndex in
    if (ruleStartIndex =? -1)%Z || (ruleEndIndex =? -1)%Z then
      Some ("Could not find opening or closing braces for CSS rule '" ++ selector style ++ "'.")
    else
      let ruleContent := js_substring code (ruleStartIndex + 1) ruleEndIndex in
      check_properties (selector style) ruleContent (properties style).

Fixpoint css_loop (code : string) (styles : list StyleExpectation) : option string :=
  match styles with
  | [] => None
  | style :: rest =>
      match check_style code style with
      | Some m => Some m
      | None => css_loop code rest
      end
  end.

Definition validateCSSProperties (code : string) (expectedStyles : list StyleExpectation)
    : ValidationResult :=
  match css_loop code expectedStyles with
  | Some m => mkValidationResult false m None
  | None => mkValidationResult true "CSS styles look correct!" None
  end.

End CSSValidator.

Arguments mkStyleExpectation {RegExp}.

(* ================================================================== *)
(** ** The browser side: [DOMParser] and [querySelectorAll] *)
(* ================================================================== *)

(** A model of the platform functions the validator calls, following the
    WHATWG HTML parsing algorithm and the Selectors grammar on a fragment:
    start and end tags (attributes are read past and not kept), comments
    and text; the insertion modes from "initial" to "after after body",
    with the implied [html], [head] and [body] elements; type selectors
    and the child combinator [>]. *)
Module BrowserDOM.

Inductive token :=
| TStart (name : string)
| TEnd (name : string)
| TChar (c : ascii)
| TEOF.

(** A tag name: a letter, then letters and digits, lower-cased. *)
Fixpoint read_name_rest (s : list ascii) : list ascii * list ascii :=
  match s with
  | c :: r => if is_letter c || is_digit c
              then let '(n, r') := read_name_rest r in (lower_ascii c :: n, r')
              else ([], s)
  | [] => ([], [])
  end.

Definition read_name (s : list ascii) : option (string * list ascii) :=
  match s with
  | c :: _ => if is_letter c then let '(n, r) := read_name_rest s in
                                  Some (string_of_list_ascii n, r)
              else None
  | [] => None
  end.

(** The rest of the input after the [>] closing a tag. *)
Fixpoint after_gt (s : list ascii) : option (list ascii) :=
  match s with
  | c :: r => if Ascii.eqb c ">" then Some r else after_gt r
  | [] => None
  end.

(** The rest of the input after the [-->] closing a comment. *)
Fixpoint after_comment (s : list ascii) : option (list ascii) :=
  match s with
  | "-" :: "-" :: ">" :: r => Some r
  | _ :: r => after_comment r
  | [] => None
  end%char.

(** The tokenizer; a tag or comment running to the end of the input is
    dropped, a [<] that opens no tag is text. *)
Fixpoint tokenize (fuel : nat) (s : list ascii) : list token :=
  match fuel with
  | O => [TEOF]
  | S f =>
      match s with
      | [] => [TEOF]
      | "<" :: "!" :: "-" :: "-" :: r =>
          match after_comment r with Some r' => tokenize f r' | None => [TEOF] end
      | "<" :: "/" :: r =>
          match read_name r with
          | Some (n, r1) => match after_gt r1 with
                            | Some r' => TEnd n :: tokenize f r'
                            | None => [TEOF]
                            end
          | None => TChar "<" :: tokenize f ("/" :: r)
          end
      | "<" :: r =>
          match read_name r with
          | Some (n, r1) => match after_gt r1 with
                            | Some r' => TStart n :: tokenize f r'
                            | None => [TEOF]
                            end
          | None => TChar "<" :: tokenize f r
          end
      | c :: r => TChar c :: tokenize f r
      end
  end%char.

Inductive node :=
| Element (tagName : string) (children : list node)
| Text (data : string).

(** The stack of open elements, current node first; each entry holds
    its children in reverse order. *)
Definition stack := list (string * list node).

Definition insert_node (n : node) (stk : stack) : stack :=
  match stk with
  | (t, ch) :: r => (t, n :: ch) :: r
  | [] => []
  end.

Definition push (t : string) (stk : stack) : stack := (t, []) :: stk.

(** Pops the current node into its parent; the root stays. *)
Definition pop (stk : stack) : stack :=
  match stk with
  | (t, ch) :: (t', ch') :: r => (t', Element t (rev ch) :: ch') :: r
  | _ => stk
  end.

(** "Any other end tag" in body: pop up to the open element of that name
    unless [body] or [html] comes first. *)
Fixpoint open_above_body (n : string) (stk : stack) : option nat :=
  match stk with
  | (t, _) :: r =>
      if String.eqb t n then Some 0
      else if String.eqb t "body" || String.eqb t "html" then None
      else option_map S (open_above_body n r)
  | [] => None
  end.

Fixpoint pop_n (k : nat) (stk : stack) : stack :=
  match k with O => pop stk | S k' => pop_n k' (pop stk) end.

Definition is_void (n : string) : bool :=
  existsb (String.eqb n) ["area"; "base"; "br"; "col"; "embed"; "hr"; "img"; "input";
                          "link"; "meta"; "source"; "track"; "wbr"].

Definition is_head_void (n : string) : bool :=
  existsb (String.eqb n) ["base"; "basefont"; "bgsound"; "link"; "meta"].

Definition is_text_element (n : string) : bool :=
  existsb (String.eqb n) ["title"; "style"; "script"; "noframes"].

Definition in_list (n : string) (l : list string) : bool := existsb (String.eqb n) l.

Inductive mode :=
| Initial | BeforeHtml | BeforeHead | InHead | AfterHead
| InBody | AfterBody | AfterAfterBody
| TextIn (original : mode).

Definition ws_token (t : token) : bool :=
  match t with TChar c => is_space c | _ => false end.

Definition is_start (n : string) (t : token) : bool :=
  match t with TStart n' => String.eqb n n' | _ => false end.

(** One token in one insertion mode; [fuel] bounds the reprocessing of
    the token in the next modes. *)
Fixpoint process (fuel : nat) (m : mode) (stk : stack) (t : token) : mode * stack :=
  match fuel with
  | O => (m, stk)
  | S f =>
      match m with
      | Initial => if ws_token t then (m, stk) else process f BeforeHtml stk t
      | BeforeHtml =>
          if ws_token t then (m, stk)
          else if is_start "html" t then (BeforeHead, push "html" stk)
          else match t with
               | TEnd n => if in_list n ["head"; "body"; "html"; "br"]
                           then process f BeforeHead (push "html" stk) t else (m, stk)
               | _ => process f BeforeHead (push "html" stk) t
               end
      | BeforeHead =>
          if ws_token t || is_start "html" t then (m, stk)
          else if is_start "head" t then (InHead, push "head" stk)
          else match t with
               | TEnd n => if in_list n ["head"; "body"; "html"; "br"]
                           then process f InHead (push "head" stk) t else (m, stk)
               | _ => process f InHead (push "head" stk) t
               end
      | InHead =>
          match t with
          | TChar c => if is_space c then (m, insert_node (Text (String c EmptyString)) stk)
                       else process f AfterHead (pop stk) t
          | TStart n =>
              if String.eqb n "html" || String.eqb n "head" then (m, stk)
              else if is_head_void n then (m, pop (push n stk))
              else if is_text_element n then (TextIn InHead, push n stk)
              else process f AfterHead (pop stk) t
          | TEnd n =>
              if String.eqb n "head" then (AfterHead, pop stk)
              else if in_list n ["body"; "html"; "br"] then process f AfterHead (pop stk) t
              else (m, stk)
          | TEOF => process f AfterHead (pop stk) t
          end
      | TextIn o =>
          match t with
          | TChar c => (m, insert_node (Text (String c EmptyString)) stk)
          | TEnd _ => (o, pop stk)
          | TStart _ => (m, stk)
          | TEOF => process f o (pop stk) t
          end
      | AfterHead =>
          match t with
          | TChar c => if is_space c then (m, insert_node (Text (String c EmptyString)) stk)
                       else process f InBody (push "body" stk) t
          | TStart n =>
              if String.eqb n "html" || String.eqb n "head" then (m, stk)
              else if String.eqb n "body" then (InBody, push "body" stk)
              else process f InBody (push "body" stk) t
          | TEnd n =>
              if in_list n ["body"; "html"; "br"] then process f InBody (push "body" stk) t
              else (m, stk)
          | TEOF => process f InBody (push "body" stk) t
          end
      | InBody =>
          match t with
          | TChar c => (m, insert_node (Text (String c EmptyString)) stk)
          | TStart n =>
              if in_list n ["html"; "head"; "body"] then (m, stk)
              else if is_text_element n then (TextIn InBody, push n stk)
              else if is_void n then (m, pop (push n stk))
              else (m, push n stk)
          | TEnd n =>
              if String.eqb n "body" then (AfterBody, stk)
              else if String.eqb n "html" then process f AfterBody stk t
              else match open_above_body n stk with
                   | Some k => (m, pop_n k stk)
                   | None => (m, stk)
                   end
          | TEOF => (m, stk)
          end
      | AfterBody =>
          if ws_token t then process f InBody stk t
          else match t with
               | TEnd n => if String.eqb n "html" then (AfterAfterBody, stk)
                           else process f InBody stk t
               | TEOF => (m, stk)
               | _ => process f InBody stk t
               end
      | AfterAfterBody =>
          match t with
          | TEOF => (m, stk)
          | _ => process f InBody stk t
          end
      end
  end.

Fixpoint run (m : mode) (stk : stack) (ts : list token) : mode * stack :=
  match ts with
  | [] => (m, stk)
  | t :: r => let '(m', stk') := process 10 m stk t in run m' stk' r
  end.

(** "Stop parsing": pops every open element. *)
Fixpoint close_all (fuel : nat) (stk : stack) : node :=
  match fuel, stk with
  | _, [] => Element "html" []
  | _, [(t, ch)] => Element t (rev ch)
  | O, (t, ch) :: _ => Element t (rev ch)
  | S f, _ => close_all f (pop stk)
  end.

(** [new DOMParser().parseFromString(code, 'text/html')], as its root
    element. *)
Definition parseFromString (code : string) : node :=
  let s := list_ascii_of_string code in
  close_all (length s + 10) (snd (run Initial [] (tokenize (S (length s)) s))).

Definition node_tag (n : node) : option string :=
  match n with Element t _ => Some t | Text _ => None end.

(** The elements in document order, each with its parent's tag. *)
Fixpoint elements_of (parent : option string) (n : node) : list (option string * node) :=
  match n with
  | Element t ch =>
      (parent, n) :: (fix go (l : list node) : list (option string * node) :=
                        match l with
                        | [] => []
                        | c :: r => (elements_of (Some t) c ++ go r)%list
                        end) ch
  | Text _ => []
  end.

(** [textContent]: the text of the descendants, in order. *)
Fixpoint textContent (n : node) : string :=
  match n with
  | Element _ ch =>
      (fix go (l : list node) : string :=
         match l with [] => "" | c :: r => textContent c ++ go r end) ch
  | Text d => d
  end.

(** The first [" > "] of a selector. *)
Fixpoint split_child (s : list ascii) : option (list ascii * list ascii) :=
  match s with
  | " " :: ">" :: " " :: r => Some ([], r)
  | c :: r => match split_child r with
              | Some (a, b) => Some (c :: a, b)
              | None => None
              end
  | [] => None
  end%char.

Definition is_type_selector (s : list ascii) : bool :=
  match s with
  | c :: r => is_letter c && forallb (fun c => is_letter c || is_digit c || Ascii.eqb c "-") r
  | [] => false
  end%char.

Definition invalid_selector (sel : string) : string :=
  "Failed to execute 'querySelectorAll' on 'Document': '" ++ sel ++
  "' is not a valid selector.".

Definition lower_of (s : list ascii) : option string :=
  Some (string_of_list_ascii (map lower_ascii s)).

(** [document.querySelectorAll(sel)]. *)
Definition querySelectorAll (root : node) (sel : string) : string + list node :=
  let s := list_ascii_of_string sel in
  let all := elements_of None root in
  match split_child s with
  | Some (a, b) =>
      if is_type_selector a && is_type_selector b then
        inr (map snd (filter (fun pn => bool_decide (pn.1 = lower_of a) &&
                                        bool_decide (node_tag pn.2 = lower_of b)) all))
      else inl (invalid_selector sel)
  | None =>
      if is_type_selector s then
        inr (map snd (filter (fun pn => bool_decide (node_tag pn.2 = lower_of s)) all))
      else inl (invalid_selector sel)
  end.

(** The validator run in the browser; the attributes are not kept by the
    tokenizer above, and no regular expression occurs in the inputs used
    here. *)
Definition validate (code : string) (expectedElements : list (Expectation Empty_set))
    : ValidationResult :=
  validateHTMLStructure node node Empty_set parseFromString querySelectorAll textContent
    (fun _ _ => None) (fun r _ => match r with end) code expectedElements.

End BrowserDOM.

(* ================================================================== *)
(** ** Examples and predicates used in the statements *)
(* ================================================================== *)

(** A level not marked [isCompleted]. *)
Definition uncompleted (up : UserProgress) (l : Level) : bool :=
  negb (completed up (id l)).

(** The catalog [A -> B -> C] of the spec's example. *)
Definition catalogABC : list Level :=
  [mkLevel "A" "Level A" [mkTask "A.1"] (Some "B");
   mkLevel "B" "Level B" [mkTask "B.1"] (Some "C");
   mkLevel "C" "Level C" [mkTask "C.1"] None].

(** A completed entry with no task recorded. *)
Definition doneEntry : LevelProgress := mkLevelProgress ∅ emptyProjectCode true.

(** The spec's invariant: [isCompleted] iff all tasks are completed, the
    test being [completedTasks.size === tasks.length]. *)
Definition complete_iff_all_tasks (LEVELS : list Level) (up : UserProgress) : Prop :=
  forall lid p L, up !! lid = Some p -> find_level LEVELS lid = Some L ->
    (isCompleted p = true <-> size (completedTasks p) = length (tasks L)).

(** The half of it the store maintains. *)
Definition all_tasks_implies_completed (LEVELS : list Level) (up : UserProgress) : Prop :=
  forall lid p L, up !! lid = Some p -> find_level LEVELS lid = Some L ->
    size (completedTasks p) = length (tasks L) -> isCompleted p = true.

(** The [alert] text of [selectLevel] for a locked level. *)
Definition locked_message (a b : Level) : string :=
  "Please complete " ++ dq ++ title a ++ dq ++ " to unlock " ++ dq ++ title b ++ dq ++ ".".

(** [m] names [x] between single quotes. *)
Definition names (x m : string) : Prop := exists p q, m = p ++ "'" ++ x ++ "'" ++ q.

(** Inputs without regular expressions. *)
Definition no_regexp_test (r : Empty_set) (_ : string) : bool := match r with end.
Definition no_regexp_source (r : Empty_set) : string := match r with end.

(** The style validator of the spec's example. *)
Definition validateCSS_h1_red (code : string) : ValidationResult :=
  validateCSSProperties Empty_set no_regexp_test no_regexp_source code
    [mkStyleExpectation "h1" [("color", PStr "red")]].

(** The expectations of task 1.1 of level 1. *)
Definition task_1_1_expectations : list (Expectation Empty_set) :=
  [mkExpectation "html" None None None None;
   mkExpectation "head" None None None (Some "html");
   mkExpectation "body" None None None (Some "html")].

(* ================================================================== *)
(** ** The App session ([src/unnamed/part_000]) *)
(* ================================================================== *)

(** The [useEffect] on [userProgress] (lines 36-98), as it sets
    [highestLevelUnlocked]. *)
Definition recomputeHighest (LEVELS : list Level) (st : AppState) : AppState :=
  mkAppState (currentView st) (currentLevelId st) (userProgress st)
    (highestLevelUnlocked_of LEVELS (userProgress st)).

(** [completeLevel] (lines 120-138) on the whole state: the store update,
    then [setCurrentView('level_selector')] and [setCurrentLevelId(null)]. *)
Definition completeLevel (levelId : string) (finalProjectCode : option ProjectCode)
    (st : AppState) : AppState :=
  mkAppState level_selector None
    (completeLevel_progress levelId finalProjectCode (userProgress st))
    (highestLevelUnlocked st).

(** [getCurrentLevel] (lines 165-167); no level id equals [null]. *)
Definition getCurrentLevel (LEVELS : list Level) (st : AppState) : option Level :=
  match currentLevelId st with
  | Some lid => find_level LEVELS lid
  | None => None
  end.

(** [{ completedTasks: new Set(), currentProjectCode: {}, isCompleted: false }]. *)
Definition freshProgress : LevelProgress := mkLevelProgress ∅ emptyProjectCode false.

(** The render of [App] (lines 180-188): [LevelView] is shown, with its
    level and [userProgress[currentLevelId] || fresh], when
    [currentView === 'level_view' && currentLevelId && getCurrentLevel()]. *)
Definition shownLevelView (LEVELS : list Level) (st : AppState)
    : option (Level * LevelProgress) :=
  match currentView st, currentLevelId st with
  | level_view, Some lid =>
      if truthy_str (Some lid) then
        match getCurrentLevel LEVELS st with
        | Some L => Some (L, match userProgress st !! lid with
                             | Some p => p
                             | None => freshProgress
                             end)
        | None => None
        end
      else None
  | _, _ => None
  end.

(* ================================================================== *)
(** ** [LevelSelector] ([src/Footer.tsx] lines 40-82) *)
(* ================================================================== *)

(** [getLevelStatus] (lines 41-49); the card's button is disabled when the
    status is ['locked']. *)
Definition getLevelStatus (levels : list Level) (userProgress : UserProgress)
    (highestLevelUnlocked : string) (level : Level) : string :=
  let levelIndex := findIndex_level levels (id level) in
  let highestUnlockedIndex := findIndex_level levels highestLevelUnlocked in
  if completed userProgress (id level) then "completed"
  else if (levelIndex <=? highestUnlockedIndex)%Z then "unlocked"
  else "locked".

(* ================================================================== *)
(** ** [LevelView] ([src/Footer.tsx] lines 102-235) *)
(* ================================================================== *)

Module LevelView.

(** The component's state. *)
Record State := mkState {
  currentTaskIndex : Z;
  userCode : string;
  feedback : option ValidationResult;
  projectCode : ProjectCode;
  isSubmitting : bool
}.

(** The [useState] initial values (lines 103-107). *)
Definition init (userProgress : LevelProgress) : State :=
  mkState 0 "" None (currentProjectCode userProgress) false.

(** [level.tasks.findIndex(task => !userProgress.completedTasks?.has(task.id))]. *)
Fixpoint firstUncompletedIndex (ts : list Task) (done : gset string) : Z :=
  match ts with
  | [] => (-1)%Z
  | t :: r =>
      if negb (bool_decide (task_id t ∈ done)) then 0%Z
      else let i := firstUncompletedIndex r done in
           if (i <? 0)%Z then (-1)%Z else (i + 1)%Z
  end.

(** The [useEffect] on [[level, userProgress]] (lines 112-117). *)
Definition syncWithProgress (level : Level) (userProgress : LevelProgress) (st : State) : State :=
  let i := firstUncompletedIndex (tasks level) (completedTasks userProgress) in
  mkState (if (i >=? 0)%Z then i else Z.of_nat (length (tasks level)))
    (userCode st) (feedback st) (currentProjectCode userProgress) (isSubmitting st).

(** [level.tasks[currentTaskIndex]]. *)
Definition currentTask (level : Level) (st : State) : option Task :=
  at_index (tasks level) (currentTaskIndex st).

(** What [handleSubmitCode] hands to the outside: the [onTaskComplete]
    call, and the callback scheduled with [setTimeout(..., 1500)]. *)
Inductive effect :=
| callTaskComplete (levelId taskId : string) (projectCodeUpdate : ProjectCode)
| timeoutCompleteLevel (levelId : string) (finalProjectCode : ProjectCode)
| timeoutNextTask.

(** [handleSubmitCode] (lines 138-171); [validate] is [Task.validate]. *)
Definition handleSubmitCode (validate : Task -> string -> ProjectCode -> ValidationResult)
    (level : Level) (userProgress : LevelProgress) (st : State) : State * list effect :=
  match currentTask level st with
  | None => (st, [])
  | Some task =>
      if isSubmitting st then (st, [])
      else
        let result := validate task (userCode st) (projectCode st) in
        if success result then
          let upc := match updatedProjectCode result with
                     | Some pc => pc
                     | None => projectCode st
                     end in
          let lastTask :=
            (currentTaskIndex st >=? Z.of_nat (length (tasks level)) - 1)%Z ||
            Nat.eqb (size (completedTasks userProgress) + 1) (length (tasks level)) in
          (mkState (currentTaskIndex st) (userCode st) (Some result)
             (match updatedProjectCode result with
              | Some pc => pc
              | None => projectCode st
              end) true,
           [callTaskComplete (id level) (task_id task) upc;
            if lastTask then timeoutCompleteLevel (id level) upc else timeoutNextTask])
        else
          (mkState (currentTaskIndex st) (userCode st) (Some result) (projectCode st) false, [])
  end.

(** The scheduled callback when it fires, on the component's own state. *)
Definition fireTimeout (e : effect) (st : State) : State :=
  match e with
  | timeoutNextTask => mkState (currentTaskIndex st) (userCode st) None (projectCode st) false
  | timeoutCompleteLevel _ _ =>
      mkState (currentTaskIndex st) (userCode st) (feedback st) (projectCode st) false
  | callTaskComplete _ _ _ => st
  end.

(** The screens of the render (lines 173-234). *)
Inductive screen :=
| levelCompleteScreen
| tasksFinishedScreen
| loadingScreen
| taskScreen (t : Task).

Definition render (level : Level) (userProgress : LevelProgress) (st : State) : screen :=
  if (currentTaskIndex st >=? Z.of_nat (length (tasks level)))%Z && isCompleted userProgress
  then levelCompleteScreen
  else match currentTask level st with
       | None => if isCompleted userProgress then tasksFinishedScreen else loadingScreen
       | Some t => taskScreen t
       end.

End LevelView.

(* ================================================================== *)
(** ** Task validators of the [LEVELS] catalog (part_004) *)
(* ================================================================== *)

Section TaskValidators.

Variables (Doc Elem RegExp : Type).
Variable parseFromString : string -> Doc.
Variable querySelectorAll : Doc -> string -> string + list Elem.
Variable textContent : Elem -> string.
Variable getAttribute : Elem -> string -> option string.
Variable test : RegExp -> string -> bool.

(** Task 2.1 (lines 173-180). *)
Definition validate_2_1 (code : string) : ValidationResult :=
  let h1Present := includes code "<h1>Hello Guro!</h1>" in
  if negb h1Present then failure "Keep the <h1>Hello Guro!</h1> heading."
  else
    let res := validateHTMLStructure Doc Elem RegExp parseFromString querySelectorAll
                 textContent getAttribute test code
                 [mkExpectation "p" (Some (PStr "This is my first paragraph.")) None None
                    (Some "body")] in
    if negb (success res) then res
    else if (indexOf code "<p>" 0 <? indexOf code "<h1>" 0)%Z
    then failure "The paragraph should come after the heading."
    else mkValidationResult true "Paragraph added!" None.

(** The expectations of task 4.1 (lines 278-282). *)
Definition task_4_1_expectations : list (Expectation RegExp) :=
  [mkExpectation "ul" None None None None;
   mkExpectation "li" (Some (PStr "Apple")) None (Some 1%Z) (Some "ul");
   mkExpectation "li" (Some (PStr "Banana")) None (Some 1%Z) (Some "ul")].

(** Task 4.1 (lines 277-294); [inl] is an exception thrown out of
    [validate]. *)
Definition validate_4_1 (code : string) : string + ValidationResult :=
  let res := validateHTMLStructure Doc Elem RegExp parseFromString querySelectorAll
               textContent getAttribute test code task_4_1_expectations in
  if negb (success res) && includes (message res) "count" then
    let D := parseFromString code in
    match querySelectorAll D "ul > li" with
    | inl e => inl e
    | inr lis =>
        if negb (Nat.eqb (length lis) 2) then
          inr (failure ("Expected 2 list items (<li>) inside <ul>, found " ++
                        string_of_Z (Z.of_nat (length lis)) ++ "."))
        else
          let texts := map (fun li => trim (textContent li)) lis in
          if negb (existsb (String.eqb "Apple") texts) || negb (existsb (String.eqb "Banana") texts)
          then inr (failure "List items should be 'Apple' and 'Banana'.")
          else inr (mkValidationResult true "Unordered list created!" None)
    end
  else inr res.

End TaskValidators.

(** Task 7.1 (lines 381-386). *)
Definition validate_7_1 (code : string) : ValidationResult :=
  if includes code "<!-- This is my main heading -->" &&
     (indexOf code "<!-- This is my main heading -->" 0 <? indexOf code "<h1>" 0)%Z
  then mkValidationResult true "Comment added correctly!" None
  else failure "Make sure your comment is `<!-- This is my main heading -->` and appears before the `<h1>`.".

(** [pc?.html] as the string the guards search. *)
Definition html_text (pc : ProjectCode) : string :=
  match html pc with Some h => h | None => "" end.

(** Task 9.1 (lines 471-474). *)
Definition validate_9_1 (code : string) (pc : ProjectCode) : ValidationResult :=
  if negb (truthy_str (html pc)) ||
     (negb (includes (html_text pc) "class='highlight'") &&
      negb (includes (html_text pc) ("class=" ++ dq ++ "highlight" ++ dq)))
  then failure "Add class='highlight' to a <p> tag in your HTML."
  else validateCSSProperties Empty_set no_regexp_test no_regexp_source code
         [mkStyleExpectation ".highlight" [("background-color", PStr "yellow")]].

(** Task 12.1 (lines 580-583). *)
Definition validate_12_1 (code : string) (pc : ProjectCode) : ValidationResult :=
  if negb (truthy_str (html pc)) || negb (includes (html_text pc) "class='my-div'")
  then failure "Add a div with class='my-div' to your HTML."
  else validateCSSProperties Empty_set no_regexp_test no_regexp_source code
         [mkStyleExpectation ".my-div" [("width", PStr "200px"); ("height", PStr "100px")]].

(* ================================================================== *)
(** ** Sample inputs for the [LevelView] and validator examples *)
(* ================================================================== *)

(** A two-task level and a progress with its first task done. *)
Definition levelAB : Level := mkLevel "A" "Level A" [mkTask "A.1"; mkTask "A.2"] (Some "B").
Definition progressA1 : LevelProgress := mkLevelProgress {[ "A.1" ]} emptyProjectCode false.

(** A [Task.validate] that accepts every answer. *)
Definition accept_all (t : Task) (c : string) (pc : ProjectCode) : ValidationResult :=
  mkValidationResult true "ok" None.

(** The elements [document.querySelectorAll(sel)] returns on the parsed code
    (none when it throws). *)
Definition query_items (code sel : string) : list BrowserDOM.node :=
  match BrowserDOM.querySelectorAll (BrowserDOM.parseFromString code) sel with
  | inr l => l
  | inl _ => []
  end.

(* ================================================================== *)
(** ** Lemmas on the JS helpers *)
(* ================================================================== *)

Lemma findIndex_level_range (LEVELS : list Level) (x : string) :
  (-1 <= findIndex_level LEVELS x < Z.of_nat (length LEVELS))%Z.
Proof.
  induction LEVELS as [|l r IH]; simpl; [lia|].
  destruct (String.eqb (id l) x); [lia|].
  destruct (findIndex_level r x <? 0)%Z eqn:E; [lia|].
  apply Z.ltb_ge in E. lia.
Qed.

Lemma findIndex_level_found (LEVELS : list Level) (x : string) (k : nat) :
  findIndex_level LEVELS x = Z.of_nat k ->
  exists a, nth_error LEVELS k = Some a /\ id a = x.
Proof.
  revert k. induction LEVELS as [|l r IH]; intros k Hk; simpl in Hk; [lia|].
  destruct (String.eqb (id l) x) eqn:E.
  - apply String.eqb_eq in E. destruct k; [|lia]. exists l. split; done.
  - destruct (findIndex_level r x <? 0)%Z eqn:E2; [lia|].
    apply Z.ltb_ge in E2. destruct k as [|k]; [lia|].
    destruct (IH k) as [a [Ha Hid]]; [lia|]. exists a. split; done.
Qed.

Lemma find_level_index (LEVELS : list Level) (x : string) (L : Level) :
  find_level LEVELS x = Some L -> (0 <= findIndex_level LEVELS x)%Z.
Proof.
  unfold find_level. induction LEVELS as [|l r IH]; simpl; [discriminate|].
  destruct (String.eqb (id l) x); [lia|].
  intros H. specialize (IH H).
  destruct (findIndex_level r x <? 0)%Z eqn:E; [apply Z.ltb_lt in E; lia | lia].
Qed.

Lemma at_index_in_range {A} (l : list A) (i : Z) :
  (0 <= i < Z.of_nat (length l))%Z -> exists a, at_index l i = Some a.
Proof.
  intros H. unfold at_index. destruct (i <? 0)%Z eqn:E; [apply Z.ltb_lt in E; lia|].
  destruct (nth_error l (Z.to_nat i)) eqn:E2; [eauto|].
  apply nth_error_None in E2. lia.
Qed.

(** The first index holding a given id. *)
Lemma findIndex_level_app (pre post : list Level) (L : Level) (x : string) :
  Forall (fun l => id l <> x) pre -> id L = x ->
  findIndex_level (pre ++ L :: post)%list x = Z.of_nat (length pre).
Proof.
  intros Hpre HL. induction Hpre as [|l r Hl Hr IH]; simpl.
  - rewrite HL, String.eqb_refl. done.
  - destruct (String.eqb (id l) x) eqn:E; [apply String.eqb_eq in E; done|].
    rewrite IH. destruct (Z.of_nat (length r) <? 0)%Z eqn:E2; [apply Z.ltb_lt in E2; lia|]. lia.
Qed.

(* ================================================================== *)
(** ** Unlock policy *)
(* ================================================================== *)

Lemma reached_walk_first (up : UserProgress) (ls : list Level) :
  reached_walk up true ls = find (uncompleted up) ls.
Proof.
  induction ls as [|l r IH]; simpl; [done|].
  unfold uncompleted. destruct (completed up (id l)) eqn:E; simpl; [done|done].
Qed.

(** All levels before the loop position are completed, so the level the
    loop stops at is the first uncompleted one, and the loop keeps
    [allLevelsCompleted] when there is none. *)
Lemma unlock_loop_spec (LEVELS : list Level) (up : UserProgress) :
  forall ls pre m,
  LEVELS = (pre ++ ls)%list ->
  Forall (fun l => completed up (id l) = true) pre ->
  (forall L, find (uncompleted up) ls = Some L -> unlock_loop LEVELS up ls m = (id L, false)) /\
  (find (uncompleted up) ls = None -> snd (unlock_loop LEVELS up ls m) = true).
Proof.
  induction ls as [|level rest IH]; intros pre m HL Hpre; simpl.
  - split; [discriminate | done].
  - change (uncompleted up level) with (negb (completed up (id level))).
    destruct (completed up (id level)) eqn:Ec; simpl.
    + apply (IH (pre ++ [level])%list).
      * rewrite HL, <- app_assoc. done.
      * apply Forall_app. split; [done | constructor; [done | constructor]].
    + split; [|discriminate]. intros L HLe. injection HLe as <-.
      assert (Hidx : findIndex_level LEVELS (id level) = Z.of_nat (length pre)).
      { rewrite HL. apply findIndex_level_app; [|done].
        eapply Forall_impl; [exact Hpre|]. intros l Hl Heq. simpl in Hl. rewrite Heq in Hl. congruence. }
      rewrite Hidx. destruct pre as [|p0 pre'] using rev_ind.
      * simpl. done.
      * rewrite length_app. simpl.
        rewrite (proj2 (Z.eqb_neq _ _)) by lia.
        replace (Z.of_nat (length pre' + 1) - 1)%Z with (Z.of_nat (length pre')) by lia.
        unfold at_index. rewrite (proj2 (Z.ltb_ge _ _)) by lia.
        rewrite Nat2Z.id, HL, <- app_assoc, nth_error_app2, Nat.sub_diag by lia. simpl.
        apply Forall_app in Hpre as [_ Hp0]. inversion Hp0 as [|? ? Hc]; subst.
        rewrite Hc. done.
Qed.

Lemma highestLevelUnlocked_of_first (LEVELS : list Level) (up : UserProgress) :
  LEVELS <> [] ->
  highestLevelUnlocked_of LEVELS up =
    match find (uncompleted up) LEVELS with
    | Some L => id L
    | None => match last LEVELS with Some l => id l | None => "1" end
    end.
Proof.
  intros Hne. destruct (unlock_loop_spec LEVELS up LEVELS [] "1" eq_refl (List.Forall_nil _))
    as [Hs Hn].
  unfold highestLevelUnlocked_of. destruct LEVELS as [|l0 r0]; [done|].
  destruct (find (uncompleted up) (l0 :: r0)) as [L|] eqn:Ef.
  - rewrite (Hs L eq_refl). done.
  - specialize (Hn eq_refl).
    destruct (unlock_loop (l0 :: r0) up (l0 :: r0) "1") as [mx all]. simpl in Hn. subst. done.
Qed.

(** C2: the recomputed highest-unlocked level is the first level, in
    catalog order, that is reached (first, or its predecessor completed)
    and not completed, and the last level when all are completed; on the
    catalog [A -> B -> C] it is A with nothing completed, B with only A
    completed, and C with all three completed. *)
Theorem highest_unlocked_policy :
  (forall (LEVELS : list Level) (up : UserProgress),
     LEVELS <> [] ->
     exists L, spec_highest_unlocked LEVELS up = Some L /\
               highestLevelUnlocked_of LEVELS up = id L) /\
  highestLevelUnlocked_of catalogABC ∅ = "A" /\
  highestLevelUnlocked_of catalogABC {[ "A" := doneEntry ]} = "B" /\
  highestLevelUnlocked_of catalogABC
    (<[ "C" := doneEntry ]> (<[ "B" := doneEntry ]> {[ "A" := doneEntry ]})) = "C".
Proof.
  split; [|split; [|split]]; [|vm_compute; reflexivity ..].
  intros LEVELS up Hne. rewrite highestLevelUnlocked_of_first by done.
  unfold spec_highest_unlocked. rewrite reached_walk_first.
  destruct (find (uncompleted up) LEVELS) as [L|]; [eauto|].
  destruct (last LEVELS) as [l|] eqn:El; [eauto|].
  apply last_None in El. done.
Qed.

Lemma highest_unlocked_policy_witness :
  ([mkLevel "1" "One" [] None] <> [] /\
   exists L, spec_highest_unlocked [mkLevel "1" "One" [] None] ∅ = Some L /\
             highestLevelUnlocked_of [mkLevel "1" "One" [] None] ∅ = id L).
Proof.
  split; [discriminate|].
  apply (proj1 highest_unlocked_policy). discriminate.
Defined.

(* ================================================================== *)
(** ** Progress store invariants *)
(* ================================================================== *)

(** C1 (as stated): the invariant is not preserved; [completeLevel] on a
    fresh store marks a one-task level completed with no task done. *)
Lemma complete_iff_all_tasks_counterexample :
  ~ (forall (LEVELS : list Level) (up up' : UserProgress),
       complete_iff_all_tasks LEVELS up -> mutation LEVELS up up' ->
       complete_iff_all_tasks LEVELS up').
Proof.
  intros H.
  set (LEVELS := [mkLevel "1" "Intro" [mkTask "1.1"] (Some "2")]).
  assert (Hinv : complete_iff_all_tasks LEVELS ∅).
  { intros lid p L Hp. rewrite lookup_empty in Hp. discriminate. }
  specialize (H LEVELS ∅ _ Hinv (mut_level LEVELS "1" None ∅)).
  specialize (H "1" (mkLevelProgress ∅ emptyProjectCode true) (mkLevel "1" "Intro" [mkTask "1.1"] (Some "2"))).
  unfold completeLevel_progress in H. rewrite lookup_empty, lookup_insert_eq in H.
  destruct (H eq_refl eq_refl) as [H1 _]. specialize (H1 eq_refl).
  vm_compute in H1. discriminate.
Qed.

(** C1 (amended): every mutation preserves "all tasks of the level
    completed (size equal to the task count) implies [isCompleted]", and
    [completeLevel] sets [isCompleted] whatever [completedTasks] holds. *)
Theorem all_tasks_implies_completed_preserved :
  forall (LEVELS : list Level) (up up' : UserProgress),
    all_tasks_implies_completed LEVELS up -> mutation LEVELS up up' ->
    all_tasks_implies_completed LEVELS up' /\
    (forall lid pc, up' = completeLevel_progress lid pc up ->
       exists p, up' !! lid = Some p /\ isCompleted p = true).
Proof.
  intros LEVELS up up' Hinv Hm. split.
  - destruct Hm as [levelId tid pc up | levelId pc up];
      intros lid p L Hp HL Hsz.
    + unfold updateTaskProgress_progress in Hp.
      destruct (decide (levelId = lid)) as [<-|Hne].
      * rewrite lookup_insert_eq in Hp. injection Hp as <-. rewrite HL in Hsz |- *.
        destruct (Nat.eqb _ _) eqn:E; [done|].
        apply Nat.eqb_neq in E. simpl in Hsz. done.
      * rewrite lookup_insert_ne in Hp by done. eauto.
    + unfold completeLevel_progress in Hp.
      destruct (decide (levelId = lid)) as [<-|Hne].
      * rewrite lookup_insert_eq in Hp. injection Hp as <-. done.
      * rewrite lookup_insert_ne in Hp by done. eauto.
  - intros lid pc ->. unfold completeLevel_progress. rewrite lookup_insert_eq. eauto.
Qed.

Lemma all_tasks_implies_completed_preserved_witness :
  let LEVELS := [mkLevel "1" "Intro" [mkTask "1.1"] (Some "2")] in
  all_tasks_implies_completed LEVELS ∅ /\
  mutation LEVELS ∅ (updateTaskProgress_progress LEVELS "1" "1.1" None ∅) /\
  all_tasks_implies_completed LEVELS (updateTaskProgress_progress LEVELS "1" "1.1" None ∅).
Proof.
  intros LEVELS.
  assert (H0 : all_tasks_implies_completed LEVELS ∅).
  { intros lid p L Hp. rewrite lookup_empty in Hp. discriminate. }
  split; [exact H0|]. split; [constructor|].
  apply (all_tasks_implies_completed_preserved LEVELS ∅ _ H0 (mut_task LEVELS "1" "1.1" None ∅)).
Defined.

(** C9: no mutation removes a completed task or resets [isCompleted],
    and re-adding a task already present leaves the set as it was. *)
Theorem progress_monotone :
  forall (LEVELS : list Level) (up : UserProgress) (lid : string) (p : LevelProgress),
    up !! lid = Some p ->
    (forall up', mutation LEVELS up up' ->
       exists p', up' !! lid = Some p' /\
         completedTasks p ⊆ completedTasks p' /\
         (isCompleted p = true -> isCompleted p' = true)) /\
    (forall tid pc, tid ∈ completedTasks p ->
       exists p', updateTaskProgress_progress LEVELS lid tid pc up !! lid = Some p' /\
         completedTasks p' = completedTasks p).
Proof.
  intros LEVELS up lid p Hp. split.
  - intros up' Hm. destruct Hm as [levelId tid pc up0 | levelId pc up0].
    + unfold updateTaskProgress_progress.
      destruct (decide (levelId = lid)) as [<-|Hne].
      * rewrite lookup_insert_eq, Hp.
        destruct (find_level LEVELS levelId) as [L|];
          [destruct (Nat.eqb _ _)|]; eexists; (split; [reflexivity|]); simpl;
          (split; [set_solver | done]).
      * rewrite lookup_insert_ne by done. eexists; split; [exact Hp | done].
    + unfold completeLevel_progress.
      destruct (decide (levelId = lid)) as [<-|Hne].
      * rewrite lookup_insert_eq, Hp. eexists; split; [reflexivity|]. simpl. done.
      * rewrite lookup_insert_ne by done. eexists; split; [exact Hp | done].
  - intros tid pc Htid. unfold updateTaskProgress_progress.
    rewrite lookup_insert_eq, Hp.
    assert (Hs : {[tid]} ∪ completedTasks p = completedTasks p) by set_solver.
    destruct (find_level LEVELS lid) as [L|];
      [destruct (Nat.eqb _ _)|]; eexists; (split; [reflexivity|]); simpl; exact Hs.
Qed.

Lemma progress_monotone_witness :
  ({[ "1" := doneEntry ]} : UserProgress) !! "1" = Some doneEntry /\
  exists p', updateTaskProgress_progress catalogABC "1" "1.1" None ({[ "1" := doneEntry ]} : UserProgress) !! "1" = Some p' /\
    completedTasks doneEntry ⊆ completedTasks p' /\
    (isCompleted doneEntry = true -> isCompleted p' = true).
Proof.
  split; [apply lookup_singleton_eq|].
  apply (proj1 (progress_monotone catalogABC ({[ "1" := doneEntry ]} : UserProgress) "1" doneEntry
                  (lookup_singleton_eq _ _))).
  constructor.
Defined.

(* ================================================================== *)
(** ** Save and load *)
(* ================================================================== *)

Lemma json_strings_JStr (l : list string) : json_strings (map JStr l) = l.
Proof. induction l as [|s r IH]; simpl; [done | by rewrite IH]. Qed.

Lemma restore_projectCode_roundtrip (pc : ProjectCode) :
  restore_projectCode (Some (projectCode_to_json pc)) = pc.
Proof. destruct pc as [[h|] [c|] [j|]]; reflexivity. Qed.

Lemma restore_entry_roundtrip (p : LevelProgress) :
  restore_entry (levelProgress_to_json p) = Some p.
Proof.
  destruct p as [ct [h c j] b].
  destruct h, c, j; simpl; rewrite json_strings_JStr, list_to_set_elements_L;
    destruct b; reflexivity.
Qed.

Lemma jget_not_key (k : string) (l : list (string * LevelProgress)) :
  k ∉ l.*1 ->
  jget k (map (fun kv => (kv.1, levelProgress_to_json kv.2)) l) = None.
Proof.
  induction l as [|[k' v] r IH]; intros Hk; simpl; [done|].
  rewrite IH by set_solver.
  destruct (String.eqb k k') eqn:E; [|done].
  apply String.eqb_eq in E. subst. set_solver.
Qed.

Lemma restore_entries_roundtrip (l : list (string * LevelProgress)) :
  NoDup l.*1 ->
  restore_entries (map (fun kv => (kv.1, levelProgress_to_json kv.2)) l) = Some (list_to_map l).
Proof.
  induction l as [|[k p] r IH]; intros Hnd; [done|].
  cbn [map restore_entries fst snd list_to_map foldr].
  rewrite fmap_cons in Hnd. apply NoDup_cons in Hnd as [Hk Hnd].
  rewrite jget_not_key by done. rewrite restore_entry_roundtrip, IH by done. done.
Qed.

(** C5: loading a saved store gives the store back: the same completed
    task sets, project code and completion flags for every level. *)
Theorem save_load_roundtrip (up : UserProgress) : load (save up) = Some up.
Proof.
  unfold load, save. rewrite restore_entries_roundtrip by apply NoDup_fst_map_to_list.
  by rewrite list_to_map_to_list.
Qed.

(* ================================================================== *)
(** ** Level selection *)
(* ================================================================== *)

(** C6: when the highest-unlocked level is in the catalog at index [h],
    selecting a catalog level with a larger index leaves the state as it
    was and alerts a message naming the highest-unlocked level (the
    prerequisite) and the next one; selecting a level at index [h] or
    before opens it. *)
Theorem selectLevel_guard :
  forall (LEVELS : list Level) (st : AppState) (levelId : string) (L : Level) (h : nat),
    find_level LEVELS levelId = Some L ->
    findIndex_level LEVELS (highestLevelUnlocked st) = Z.of_nat h ->
    ((Z.of_nat h < findIndex_level LEVELS levelId)%Z ->
       exists a b, nth_error LEVELS h = Some a /\ id a = highestLevelUnlocked st /\
         nth_error LEVELS (S h) = Some b /\
         selectLevel LEVELS levelId st = Some (st, Some (locked_message a b))) /\
    ((findIndex_level LEVELS levelId <= Z.of_nat h)%Z ->
       selectLevel LEVELS levelId st =
         Some (mkAppState level_view (Some levelId) (userProgress st) (highestLevelUnlocked st), None)).
Proof.
  intros LEVELS st levelId L h HL Hh. unfold selectLevel. rewrite HL, Hh. split.
  - intros Hlt. pose proof (findIndex_level_range LEVELS levelId) as Hr.
    destruct (findIndex_level_found LEVELS _ h Hh) as [a [Ha Hida]].
    rewrite (proj2 (Z.leb_gt _ _)) by lia.
    rewrite (proj2 (Z.ltb_lt _ _)) by lia.
    destruct (nth_error LEVELS (S h)) as [b|] eqn:Hb.
    2:{ apply nth_error_None in Hb. lia. }
    exists a, b. split; [done|]. split; [done|]. split; [done|].
    unfold at_index. rewrite (proj2 (Z.ltb_ge _ _)) by lia.
    rewrite (proj2 (Z.ltb_ge _ _)) by lia.
    rewrite Nat2Z.id, Ha. replace (Z.to_nat (Z.of_nat h + 1)) with (S h) by lia.
    rewrite Hb. done.
  - intros Hle. rewrite (proj2 (Z.leb_le _ _)) by lia. done.
Qed.

Lemma selectLevel_guard_witness :
  let st := mkAppState level_selector None ∅ "A" in
  find_level catalogABC "C" = Some (mkLevel "C" "Level C" [mkTask "C.1"] None) /\
  findIndex_level catalogABC (highestLevelUnlocked st) = Z.of_nat 0 /\
  selectLevel catalogABC "C" st =
    Some (st, Some (locked_message (mkLevel "A" "Level A" [mkTask "A.1"] (Some "B"))
                                   (mkLevel "B" "Level B" [mkTask "B.1"] (Some "C")))).
Proof.
  intros st. split; [reflexivity|]. split; [reflexivity|].
  destruct (proj1 (selectLevel_guard catalogABC st "C" _ 0 eq_refl eq_refl))
    as [a [b [Ha [_ [Hb Hs]]]]]; [vm_compute; reflexivity|].
  simpl in Ha, Hb. injection Ha as <-. injection Hb as <-. exact Hs.
Defined.

(* ================================================================== *)
(** ** Feedback while editing *)
(* ================================================================== *)

(** C8: editing the code clears a failure message and keeps a success
    message. *)
Theorem handleCodeChange_feedback :
  forall (newCode : string) (st : LevelViewState) (r : ValidationResult),
    feedback st = Some r ->
    (success r = false -> feedback (handleCodeChange newCode st) = None) /\
    (success r = true -> feedback (handleCodeChange newCode st) = Some r) /\
    userCode (handleCodeChange newCode st) = newCode.
Proof.
  intros newCode [code fb] r Hfb. simpl in Hfb. subst fb. unfold handleCodeChange. simpl.
  destruct (success r); split; try split; try done.
Qed.

Lemma handleCodeChange_feedback_witness :
  let ok := mkValidationResult true "HTML structure looks good!" None in
  let st := mkLevelViewState "<p>" (Some ok) in
  feedback st = Some ok /\ feedback (handleCodeChange "<p>x" st) = Some ok.
Proof.
  intros ok st. split; [reflexivity|].
  apply (proj1 (proj2 (handleCodeChange_feedback "<p>x" st ok eq_refl))). reflexivity.
Defined.

(* ================================================================== *)
(** ** The structural style validator *)
(* ================================================================== *)

Lemma string_app_assoc (a b c : string) : (a ++ b) ++ c = a ++ (b ++ c).
Proof. induction a as [|x a IH]; [reflexivity | exact (f_equal (String x) IH)]. Qed.

Section CSSProofs.

Variable RegExp : Type.
Variable test : RegExp -> string -> bool.
Variable source : RegExp -> string.

Lemma check_properties_names (sel content : string) (props : list (string * Pattern RegExp)) (m : string) :
  check_properties RegExp test source sel content props = Some m ->
  exists prop v, In (prop, v) props /\ names prop m /\ names sel m.
Proof.
  induction props as [|[prop v] rest IH]; simpl; [discriminate|].
  intros H. destruct (match_prop prop content) as [cap|].
  - destruct v as [s|r].
    + destruct (String.eqb _ _).
      * destruct (IH H) as [p' [v' [Hin Hn]]]. exists p', v'. auto.
      * injection H as <-. exists prop, (PStr s). split; [left; done|]. split.
        -- exists "Property ", (" for '" ++ sel ++ "' should be '" ++ s ++ "', but found '" ++
             trim cap ++ "'."). reflexivity.
        -- exists ("Property '" ++ prop ++ "' for "),
             (" should be '" ++ s ++ "', but found '" ++ trim cap ++ "'.").
           simpl. repeat rewrite string_app_assoc. reflexivity.
    + destruct (test r _).
      * destruct (IH H) as [p' [v' [Hin Hn]]]. exists p', v'. auto.
      * injection H as <-. exists prop, (PRe r). split; [left; done|]. split.
        -- exists "Property ", (" for '" ++ sel ++ "' has value '" ++ trim cap ++
             "', which does not match pattern '" ++ source r ++ "'."). reflexivity.
        -- exists ("Property '" ++ prop ++ "' for "),
             (" has value '" ++ trim cap ++ "', which does not match pattern '" ++
              source r ++ "'.").
           simpl. repeat rewrite string_app_assoc. reflexivity.
  - injection H as <-. exists prop, v. split; [left; done|]. split.
    + exists "Property ", (" not found for selector '" ++ sel ++ "'."). reflexivity.
    + exists ("Property '" ++ prop ++ "' not found for selector "), ".".
      simpl. repeat rewrite string_app_assoc. reflexivity.
Qed.

Lemma check_style_names (code : string) (style : StyleExpectation RegExp) (m : string) :
  check_style RegExp test source code style = Some m -> names (selector RegExp style) m.
Proof.
  unfold check_style. destruct (_ =? -1)%Z.
  - intros H. injection H as <-. exists "CSS rule for selector ", " not found.". reflexivity.
  - destruct (_ || _).
    + intros H. injection H as <-.
      exists "Could not find opening or closing braces for CSS rule ", ".". reflexivity.
    + intros H. destruct (check_properties_names _ _ _ _ H) as [prop [v [Hin [Hp Hn]]]]. exact Hn.
Qed.

Lemma css_loop_none (code : string) (styles : list (StyleExpectation RegExp)) :
  css_loop RegExp test source code styles = None <->
  Forall (fun s => check_style RegExp test source code s = None) styles.
Proof.
  induction styles as [|s rest IH]; simpl.
  - split; [constructor | done].
  - destruct (check_style RegExp test source code s) eqn:E.
    + split; [discriminate | intros Hf; inversion Hf; congruence].
    + rewrite IH. split; [intros H; constructor; done | intros Hf; inversion Hf; done].
Qed.

Lemma css_loop_first (code : string) (pre post : list (StyleExpectation RegExp))
    (s : StyleExpectation RegExp) (m : string) :
  Forall (fun s => check_style RegExp test source code s = None) pre ->
  check_style RegExp test source code s = Some m ->
  css_loop RegExp test source code (pre ++ s :: post)%list = Some m.
Proof.
  intros Hpre Hs. induction Hpre as [|s0 r H0 Hr IH]; simpl.
  - rewrite Hs. done.
  - rewrite H0. done.
Qed.

End CSSProofs.

(** C4: the style validator succeeds exactly when every expectation
    passes; it fails with the message of the first failing expectation;
    every failure names the selector, and a failing property check names
    the property; a literal value is compared case-insensitively with the
    trimmed capture, a pattern must accept it. [h1 { color: red; }]
    passes [h1 {color: red}], [h1 { color: blue; }] fails naming [color]
    and [h1]. *)
Theorem css_validator_behaviour :
  (forall (RegExp : Type) (test : RegExp -> string -> bool) (source : RegExp -> string)
          (code : string) (styles : list (StyleExpectation RegExp)),
     success (validateCSSProperties RegExp test source code styles) = true <->
     Forall (fun s => check_style RegExp test source code s = None) styles) /\
  (forall (RegExp : Type) (test : RegExp -> string -> bool) (source : RegExp -> string)
          (code : string) (pre post : list (StyleExpectation RegExp))
          (s : StyleExpectation RegExp) (m : string),
     Forall (fun s => check_style RegExp test source code s = None) pre ->
     check_style RegExp test source code s = Some m ->
     validateCSSProperties RegExp test source code (pre ++ s :: post)%list =
       mkValidationResult false m None /\
     names (selector RegExp s) m) /\
  (forall (RegExp : Type) (test : RegExp -> string -> bool) (source : RegExp -> string)
          (sel content : string) (props : list (string * Pattern RegExp)) (m : string),
     check_properties RegExp test source sel content props = Some m ->
     exists prop v, In (prop, v) props /\ names prop m) /\
  (forall (RegExp : Type) (test : RegExp -> string -> bool) (source : RegExp -> string)
          (sel content prop cap : string),
     match_prop prop content = Some cap ->
     (forall v, check_properties RegExp test source sel content [(prop, PStr v)] = None <->
                toLowerCase (trim cap) = toLowerCase v) /\
     (forall r, check_properties RegExp test source sel content [(prop, PRe r)] = None <->
                test r (trim cap) = true)) /\
  validateCSS_h1_red "h1 { color: red; }" =
    mkValidationResult true "CSS styles look correct!" None /\
  validateCSS_h1_red "h1 { color: blue; }" =
    mkValidationResult false "Property 'color' for 'h1' should be 'red', but found 'blue'." None.
Proof.
  split; [|split; [|split; [|split; [|split]]]].
  - intros RegExp test source code styles. unfold validateCSSProperties.
    rewrite <- css_loop_none. destruct (css_loop _ _ _ _ _); simpl; split; done.
  - intros RegExp test source code pre post s m Hpre Hs. split.
    + unfold validateCSSProperties. rewrite (css_loop_first _ _ _ _ _ _ _ _ Hpre Hs). done.
    + exact (check_style_names _ _ _ _ _ _ Hs).
  - intros RegExp test source sel content props m H.
    destruct (check_properties_names _ _ _ _ _ _ _ H) as [prop [v [Hin [Hp _]]]]. eauto.
  - intros RegExp test source sel content prop cap Hm. simpl. rewrite Hm. split.
    + intros v. destruct (String.eqb _ _) eqn:E.
      * apply String.eqb_eq in E. split; done.
      * apply String.eqb_neq in E. split; [discriminate | done].
    + intros r. destruct (test r _); split; done.
  - vm_compute. reflexivity.
  - vm_compute. reflexivity.
Qed.

Lemma css_validator_behaviour_witness :
  match_prop "color" " color: RED; " = Some "RED" /\
  check_properties Empty_set no_regexp_test no_regexp_source "h1" " color: RED; "
    [("color", PStr "red")] = None.
Proof.
  split; [vm_compute; reflexivity|].
  apply (proj2 (proj1 (proj1 (proj2 (proj2 (proj2 css_validator_behaviour)))
                  Empty_set no_regexp_test no_regexp_source "h1" " color: RED; " "color" "RED"
                  (ltac:(vm_compute; reflexivity))) "red")).
  vm_compute. reflexivity.
Defined.

(* ================================================================== *)
(** ** The structural markup validator *)
(* ================================================================== *)

Section HTMLProofs.

Variables (Doc Elem RegExp : Type).
Variable parseFromString : string -> Doc.
Variable querySelectorAll : Doc -> string -> string + list Elem.
Variable textContent : Elem -> string.
Variable getAttribute : Elem -> string -> option string.
Variable test : RegExp -> string -> bool.

Lemma check_el_zero_count (doc : Doc) (el : Expectation RegExp) :
  count RegExp el = Some 0%Z -> tag RegExp el <> "!--" ->
  check_el Doc Elem RegExp querySelectorAll textContent getAttribute test doc el <> inr None.
Proof.
  intros Hc Ht. unfold check_el.
  destruct (querySelectorAll doc (selector_of RegExp el)) as [e|elements]; [discriminate|].
  unfold check_elements. cbv zeta. rewrite Hc.
  destruct (Z.eqb _ 0%Z) eqn:E; simpl; [|discriminate].
  unfold count_falsy. rewrite Hc. simpl.
  destruct (String.eqb (tag RegExp el) "!--") eqn:Et; [apply String.eqb_eq in Et; done|].
  simpl. discriminate.
Qed.

Lemma html_loop_zero_count (doc : Doc) (exps : list (Expectation RegExp))
    (el : Expectation RegExp) (r : ValidationResult) :
  In el exps -> count RegExp el = Some 0%Z -> tag RegExp el <> "!--" ->
  html_loop Doc Elem RegExp querySelectorAll textContent getAttribute test doc exps = inr r ->
  success r = false.
Proof.
  intros Hin Hc Ht. revert r. induction exps as [|el0 rest IH]; [done|].
  intros r. simpl.
  destruct (check_el Doc Elem RegExp querySelectorAll textContent getAttribute test doc el0)
    as [e|[m|]] eqn:E.
  - discriminate.
  - intros H. injection H as <-. done.
  - destruct Hin as [->|Hin]; [exfalso; exact (check_el_zero_count doc el Hc Ht E)|].
    exact (IH Hin r).
Qed.

(** C10: an expectation with [count: 0] for a tag other than ['!--']
    makes the markup validator fail on every input: with matching
    elements the count check fails, without any the zero count is falsy
    and the missing-element check fails. *)
Theorem zero_count_never_succeeds (code : string) (exps : list (Expectation RegExp))
    (el : Expectation RegExp) :
  In el exps -> count RegExp el = Some 0%Z -> tag RegExp el <> "!--" ->
  success (validateHTMLStructure Doc Elem RegExp parseFromString querySelectorAll
             textContent getAttribute test code exps) = false.
Proof.
  intros Hin Hc Ht. unfold validateHTMLStructure.
  destruct (html_loop _ _ _ _ _ _ _ _ _) as [e|r] eqn:E; [done|].
  exact (html_loop_zero_count _ _ _ _ Hin Hc Ht E).
Qed.

End HTMLProofs.

Lemma zero_count_never_succeeds_witness :
  let el := mkExpectation "p" None None (Some 0%Z) (Some "body") in
  In el [el] /\ count Empty_set el = Some 0%Z /\ tag Empty_set el <> "!--" /\
  success (BrowserDOM.validate "<p>x</p>" [el]) = false.
Proof.
  intros el. split; [left; reflexivity|]. split; [reflexivity|]. split; [discriminate|].
  unfold BrowserDOM.validate.
  apply (zero_count_never_succeeds _ _ _ _ _ _ _ _ "<p>x</p>" [el] el);
    [left; reflexivity | reflexivity | discriminate].
Defined.

(** C3: an expectation for the comment marker ['!--'] with no count
    fails in the browser, on markup holding a comment as on empty markup:
    [querySelectorAll('!--')] throws a [SyntaxError] before the exemption
    of the comment marker is reached. *)
Theorem comment_marker_expectation_fails :
  BrowserDOM.validate "<p>x</p><!-- note -->"
    [mkExpectation "!--" None None None None] =
  failure ("Error parsing HTML: " ++ BrowserDOM.invalid_selector "!--") /\
  BrowserDOM.validate "" [mkExpectation "!--" None None None None] =
  failure ("Error parsing HTML: " ++ BrowserDOM.invalid_selector "!--").
Proof. split; vm_compute; reflexivity. Qed.

(** C7: the markup validator accepts
    [<html><head></head><body></body></html>] against the task 1.1
    expectations, and accepts it too with the [<head>] element removed:
    the HTML parser inserts the implied [head] element. *)
Theorem task_1_1_head_check :
  BrowserDOM.validate "<html><head></head><body></body></html>" task_1_1_expectations =
    mkValidationResult true "HTML structure looks good!" None /\
  BrowserDOM.validate "<html><body></body></html>" task_1_1_expectations =
    mkValidationResult true "HTML structure looks good!" None /\
  BrowserDOM.parseFromString "<html><body></body></html>" =
    BrowserDOM.Element "html" [BrowserDOM.Element "head" []; BrowserDOM.Element "body" []].
Proof. split; [|split]; vm_compute; reflexivity. Qed.

(* ================================================================== *)
(** ** The App session, [LevelView] and task validators *)
(* ================================================================== *)

Lemma findIndex_level_nodup (LEVELS : list Level) (j : nat) (X : Level) :
  NoDup (map id LEVELS) -> nth_error LEVELS j = Some X ->
  findIndex_level LEVELS (id X) = Z.of_nat j.
Proof.
  revert j. induction LEVELS as [|l r IH]; intros j Hnd Hj; [destruct j; discriminate|].
  simpl in Hnd. apply NoDup_cons in Hnd as [Hl Hnd]. simpl.
  destruct j as [|j]; simpl in Hj.
  - injection Hj as <-. rewrite String.eqb_refl. done.
  - destruct (String.eqb (id l) (id X)) eqn:E.
    + apply String.eqb_eq in E. exfalso. apply Hl. rewrite E.
      apply list_elem_of_In, in_map. eapply nth_error_In. exact Hj.
    + rewrite (IH j Hnd Hj). rewrite (proj2 (Z.ltb_ge _ _)) by lia. lia.
Qed.

Lemma find_level_nodup (LEVELS : list Level) (j : nat) (X : Level) :
  NoDup (map id LEVELS) -> nth_error LEVELS j = Some X ->
  find_level LEVELS (id X) = Some X.
Proof.
  unfold find_level. revert j. induction LEVELS as [|l r IH]; intros j Hnd Hj; [destruct j; discriminate|].
  simpl in Hnd. apply NoDup_cons in Hnd as [Hl Hnd]. simpl.
  destruct j as [|j]; simpl in Hj.
  - injection Hj as <-. rewrite String.eqb_refl. done.
  - destruct (String.eqb (id l) (id X)) eqn:E.
    + apply String.eqb_eq in E. exfalso. apply Hl. rewrite E.
      apply list_elem_of_In, in_map. eapply nth_error_In. exact Hj.
    + exact (IH j Hnd Hj).
Qed.

Lemma find_level_In (LEVELS : list Level) (X : Level) :
  In X LEVELS -> exists Y, find_level LEVELS (id X) = Some Y.
Proof.
  unfold find_level. induction LEVELS as [|l r IH]; intros Hin; [done|]. simpl.
  destruct (String.eqb (id l) (id X)) eqn:E; [eauto|].
  destruct Hin as [->|Hin]; [rewrite String.eqb_refl in E; discriminate|]. auto.
Qed.

Lemma findIndex_level_none (LEVELS : list Level) (x : string) :
  find_level LEVELS x = None -> findIndex_level LEVELS x = (-1)%Z.
Proof.
  unfold find_level. induction LEVELS as [|l r IH]; simpl; [done|].
  destruct (String.eqb (id l) x); [discriminate|]. intros H. rewrite IH by done. done.
Qed.

Lemma find_position {A} (f : A -> bool) (l : list A) (x : A) :
  find f l = Some x ->
  exists p, nth_error l p = Some x /\ f x = true /\
    forall q y, (q < p)%nat -> nth_error l q = Some y -> f y = false.
Proof.
  induction l as [|a r IH]; simpl; [discriminate|].
  destruct (f a) eqn:E.
  - intros H. injection H as <-. exists 0%nat. split; [done|]. split; [done|]. intros; lia.
  - intros H. destruct (IH H) as [p [Hp [Hx Hq]]]. exists (S p). split; [done|]. split; [done|].
    intros [|q] y Hlt Hy; simpl in Hy; [congruence|]. apply (Hq q); [lia|done].
Qed.

Lemma find_none_all {A} (f : A -> bool) (l : list A) :
  find f l = None -> forall q y, nth_error l q = Some y -> f y = false.
Proof.
  induction l as [|a r IH]; simpl; intros H q y Hy; [destruct q; discriminate|].
  destruct (f a) eqn:E; [discriminate|].
  destruct q; simpl in Hy; [congruence|]. eauto.
Qed.

Lemma last_position {A} (l : list A) (x : A) :
  last l = Some x -> nth_error l (length l - 1) = Some x.
Proof.
  intros H. apply last_Some in H as [l' ->]. rewrite length_app. simpl.
  rewrite nth_error_app2 by lia. replace (length l' + 1 - 1 - length l')%nat with 0%nat by lia. done.
Qed.

(** The position of the highest unlocked level is at least [k] when all
    the levels before [k] are completed. *)
Lemma highest_index_lower (LEVELS : list Level) (up : UserProgress) (k : nat) :
  NoDup (map id LEVELS) -> (k < length LEVELS)%nat ->
  (forall j l, (j < k)%nat -> nth_error LEVELS j = Some l -> completed up (id l) = true) ->
  (Z.of_nat k <= findIndex_level LEVELS (highestLevelUnlocked_of LEVELS up))%Z.
Proof.
  intros Hnd Hk Hbelow. assert (Hne : LEVELS <> []) by (destruct LEVELS; simpl in Hk; [lia|done]).
  rewrite highestLevelUnlocked_of_first by done.
  destruct (find (uncompleted up) LEVELS) as [X|] eqn:Ef.
  - destruct (find_position _ _ _ Ef) as [p [Hp [HX Hq]]].
    rewrite (findIndex_level_nodup _ _ _ Hnd Hp).
    destruct (decide (p < k)%nat) as [Hlt|Hge]; [|lia].
    specialize (Hbelow p X Hlt Hp). unfold uncompleted in HX. rewrite Hbelow in HX. discriminate.
  - destruct (last LEVELS) as [l|] eqn:El; [|apply last_None in El; done].
    rewrite (findIndex_level_nodup _ _ _ Hnd (last_position _ _ El)). lia.
Qed.

(** Every level before the highest unlocked one is completed. *)
Lemma highest_index_below_completed (LEVELS : list Level) (up : UserProgress) (j : nat) (l : Level) :
  NoDup (map id LEVELS) ->
  (Z.of_nat j < findIndex_level LEVELS (highestLevelUnlocked_of LEVELS up))%Z ->
  nth_error LEVELS j = Some l -> completed up (id l) = true.
Proof.
  intros Hnd Hj Hl. assert (Hne : LEVELS <> []) by (destruct LEVELS; [destruct j; discriminate|done]).
  rewrite highestLevelUnlocked_of_first in Hj by done.
  destruct (find (uncompleted up) LEVELS) as [X|] eqn:Ef.
  - destruct (find_position _ _ _ Ef) as [p [Hp [HX Hq]]].
    rewrite (findIndex_level_nodup _ _ _ Hnd Hp) in Hj.
    specialize (Hq j l ltac:(lia) Hl). unfold uncompleted in Hq. destruct (completed up (id l)); done.
  - pose proof (find_none_all _ _ Ef j l Hl) as H. unfold uncompleted in H.
    destruct (completed up (id l)); done.
Qed.

(** An uncompleted level bounds the highest unlocked position. *)
Lemma highest_index_upper (LEVELS : list Level) (up : UserProgress) (k : nat) (l : Level) :
  NoDup (map id LEVELS) -> nth_error LEVELS k = Some l -> completed up (id l) = false ->
  (findIndex_level LEVELS (highestLevelUnlocked_of LEVELS up) <= Z.of_nat k)%Z.
Proof.
  intros Hnd Hl Hc.
  destruct (Z_le_gt_dec (findIndex_level LEVELS (highestLevelUnlocked_of LEVELS up)) (Z.of_nat k))
    as [H|H]; [done|].
  rewrite (highest_index_below_completed LEVELS up k l Hnd ltac:(lia) Hl) in Hc. discriminate.
Qed.

Lemma highest_in_catalog (LEVELS : list Level) (up : UserProgress) :
  LEVELS <> [] -> exists X, In X LEVELS /\ highestLevelUnlocked_of LEVELS up = id X.
Proof.
  intros Hne. rewrite highestLevelUnlocked_of_first by done.
  destruct (find (uncompleted up) LEVELS) as [X|] eqn:Ef.
  - exists X. split; [|done]. apply find_some in Ef. apply Ef.
  - destruct (last LEVELS) as [l|] eqn:El; [|apply last_None in El; done].
    exists l. split; [|done]. eapply nth_error_In. apply last_position. exact El.
Qed.

Lemma completeLevel_progress_completed (levelId x : string) (pc : option ProjectCode) (up : UserProgress) :
  (x = levelId \/ completed up x = true) -> completed (completeLevel_progress levelId pc up) x = true.
Proof.
  intros H. unfold completed, completeLevel_progress.
  destruct (decide (levelId = x)) as [->|Hne].
  - rewrite lookup_insert_eq. done.
  - rewrite lookup_insert_ne by done. destruct H as [->|H]; [done|exact H].
Qed.

Lemma mutation_completed (LEVELS : list Level) (up up' : UserProgress) (x : string) :
  mutation LEVELS up up' -> completed up x = true -> completed up' x = true.
Proof.
  intros Hm Hx. destruct Hm as [lid tid pc up | lid pc up].
  - unfold completed, updateTaskProgress_progress in *.
    destruct (decide (lid = x)) as [->|Hne].
    + rewrite lookup_insert_eq. destruct (up !! x) as [p|]; [|discriminate].
      destruct (find_level LEVELS x) as [L|]; [destruct (Nat.eqb _ _)|]; simpl; done.
    + rewrite lookup_insert_ne by done. exact Hx.
  - apply completeLevel_progress_completed. right. exact Hx.
Qed.

(** X1: [selectLevel] throws ([None]) exactly when the requested level is in
    the catalog and the stored highest-unlocked id names no level; once the
    highest-unlocked level has been recomputed from the progress (the
    [useEffect] of [App]) on a non-empty catalog, it never throws. *)
Theorem selectLevel_throws_iff :
  (forall (LEVELS : list Level) (levelId : string) (st : AppState),
     selectLevel LEVELS levelId st = None <->
     find_level LEVELS levelId <> None /\ find_level LEVELS (highestLevelUnlocked st) = None) /\
  (forall (LEVELS : list Level) (levelId : string) (st : AppState),
     LEVELS <> [] -> selectLevel LEVELS levelId (recomputeHighest LEVELS st) <> None).
Proof.
  assert (Hiff : forall (LEVELS : list Level) (levelId : string) (st : AppState),
     selectLevel LEVELS levelId st = None <->
     find_level LEVELS levelId <> None /\ find_level LEVELS (highestLevelUnlocked st) = None).
  { intros LEVELS levelId st. unfold selectLevel.
    destruct (find_level LEVELS levelId) as [L|] eqn:HL; [|split; [discriminate|intros [H _]; done]].
    pose proof (find_level_index _ _ _ HL) as Hi.
    pose proof (findIndex_level_range LEVELS levelId) as Hr.
    destruct (find_level LEVELS (highestLevelUnlocked st)) as [H|] eqn:HH.
    - pose proof (find_level_index _ _ _ HH) as Hh.
      pose proof (findIndex_level_range LEVELS (highestLevelUnlocked st)) as Hhr.
      split; [|intros [_ ?]; discriminate].
      destruct (_ <=? _)%Z; [discriminate|].
      destruct (_ + 1 <? _)%Z eqn:E; [|discriminate].
      apply Z.ltb_lt in E.
      destruct (at_index_in_range LEVELS (findIndex_level LEVELS (highestLevelUnlocked st))) as [a Ha]; [lia|].
      destruct (at_index_in_range LEVELS (findIndex_level LEVELS (highestLevelUnlocked st) + 1)) as [b Hb]; [lia|].
      rewrite Ha, Hb. discriminate.
    - rewrite (findIndex_level_none _ _ HH).
      rewrite (proj2 (Z.leb_gt _ _)) by lia.
      rewrite (proj2 (Z.ltb_lt _ _)) by lia.
      unfold at_index at 1. simpl. split; [done|]. intros _. done. }
  split; [exact Hiff|].
  intros LEVELS levelId st Hne Hn. apply Hiff in Hn as [_ Hn]. simpl in Hn.
  destruct (highest_in_catalog LEVELS (userProgress st) Hne) as [X [HX Hid]].
  rewrite Hid in Hn. destruct (find_level_In _ _ HX) as [Y HY]. congruence.
Qed.


Lemma nth_error_middle {A} (pre post : list A) (x : A) :
  nth_error (pre ++ x :: post)%list (length pre) = Some x.
Proof. rewrite nth_error_app2, Nat.sub_diag by lia. done. Qed.

Lemma nth_error_pre {A} (pre post : list A) (j : nat) (x : A) :
  nth_error pre j = Some x -> nth_error (pre ++ post)%list j = Some x.
Proof. intros H. rewrite nth_error_app1; [done|]. apply nth_error_Some. congruence. Qed.

(** X2: after [completeLevel] on level [L] whose predecessors are all
    completed, and the recompute of the highest-unlocked level, the view is
    back on the selector, [L]'s card reads ['completed'], the next level's
    card is not ['locked'], and selecting the next level opens it with its
    stored (or fresh) progress. *)
Theorem completeLevel_then_next_level_opens :
  forall (LEVELS pre post : list Level) (L N : Level) (pc : option ProjectCode) (st : AppState),
    LEVELS = (pre ++ L :: N :: post)%list ->
    NoDup (map id LEVELS) ->
    Forall (fun l => completed (userProgress st) (id l) = true) pre ->
    id N <> "" ->
    let st1 := recomputeHighest LEVELS (completeLevel (id L) pc st) in
    shownLevelView LEVELS st1 = None /\
    getLevelStatus LEVELS (userProgress st1) (highestLevelUnlocked st1) L = "completed" /\
    getLevelStatus LEVELS (userProgress st1) (highestLevelUnlocked st1) N <> "locked" /\
    exists st2, selectLevel LEVELS (id N) st1 = Some (st2, None) /\
      shownLevelView LEVELS st2 =
        Some (N, match userProgress st !! id N with Some p => p | None => freshProgress end).
Proof.
  intros LEVELS pre post L N pc st HL Hnd Hpre HN st1.
  set (up' := completeLevel_progress (id L) pc (userProgress st)).
  assert (HLc : completed up' (id L) = true) by (apply completeLevel_progress_completed; left; done).
  assert (HposN : nth_error LEVELS (S (length pre)) = Some N).
  { rewrite HL. replace (S (length pre)) with (length (pre ++ [L]))%nat by (rewrite length_app; simpl; lia).
    replace (pre ++ L :: N :: post)%list with ((pre ++ [L]) ++ N :: post)%list by (rewrite <- app_assoc; done).
    apply nth_error_middle. }
  assert (HidxN : findIndex_level LEVELS (id N) = Z.of_nat (S (length pre)))
    by exact (findIndex_level_nodup _ _ _ Hnd HposN).
  assert (Hlow : (Z.of_nat (S (length pre)) <= findIndex_level LEVELS (highestLevelUnlocked_of LEVELS up'))%Z).
  { apply highest_index_lower; [done| |].
    - apply nth_error_Some. congruence.
    - intros j l Hj Hl. rewrite HL in Hl.
      destruct (decide (j = length pre)) as [->|Hne].
      + rewrite nth_error_middle in Hl. injection Hl as <-. exact HLc.
      + assert (Hj' : (j < length pre)%nat) by lia.
        rewrite nth_error_app1 in Hl by done.
        apply completeLevel_progress_completed. right.
        rewrite List.Forall_forall in Hpre. apply Hpre. eapply nth_error_In. exact Hl. }
  assert (HNL : id N <> id L).
  { intros E. rewrite HL in Hnd. rewrite map_app in Hnd. simpl in Hnd.
    apply NoDup_app in Hnd as [_ [_ Hnd]]. apply NoDup_cons in Hnd as [Hnot _].
    apply Hnot. rewrite E. set_solver. }
  assert (HfN : find_level LEVELS (id N) = Some N) by exact (find_level_nodup _ _ _ Hnd HposN).
  split; [reflexivity|]. split; [|split].
  - unfold getLevelStatus. simpl. fold up'. rewrite HLc. done.
  - unfold getLevelStatus. simpl. fold up'.
    destruct (completed up' (id N)); [discriminate|].
    rewrite HidxN. rewrite (proj2 (Z.leb_le _ _)) by lia. discriminate.
  - eexists. split.
    + unfold selectLevel. rewrite HfN. simpl. fold up'. rewrite HidxN.
      rewrite (proj2 (Z.leb_le _ _)) by lia. reflexivity.
    + unfold shownLevelView, getCurrentLevel. simpl.
      destruct (String.eqb (id N) "") eqn:E; [apply String.eqb_eq in E; done|]. simpl.
      rewrite HfN. unfold up', completeLevel_progress. rewrite lookup_insert_ne by congruence. done.
Qed.

(** X3: with a recomputed highest-unlocked level, a completed level that
    comes after an uncompleted one shows ['completed'] on its card, yet
    [selectLevel] on it keeps the state and alerts the lock message of the
    first uncompleted level. *)
Theorem completed_level_review_refused :
  forall (LEVELS pre mid post : list Level) (U L : Level) (st : AppState),
    LEVELS = (pre ++ U :: mid ++ L :: post)%list ->
    NoDup (map id LEVELS) ->
    Forall (fun l => completed (userProgress st) (id l) = true) pre ->
    completed (userProgress st) (id U) = false ->
    completed (userProgress st) (id L) = true ->
    highestLevelUnlocked st = highestLevelUnlocked_of LEVELS (userProgress st) ->
    getLevelStatus LEVELS (userProgress st) (highestLevelUnlocked st) L = "completed" /\
    exists b, selectLevel LEVELS (id L) st = Some (st, Some (locked_message U b)).
Proof.
  intros LEVELS pre mid post U L st HL Hnd Hpre HU HLc Hh.
  split; [unfold getLevelStatus; rewrite HLc; done|].
  assert (HposU : nth_error LEVELS (length pre) = Some U) by (rewrite HL; apply nth_error_middle).
  assert (HposL : nth_error LEVELS (length pre + S (length mid)) = Some L).
  { rewrite HL. rewrite nth_error_app2 by lia. replace (length pre + S (length mid) - length pre)%nat with (S (length mid)) by lia.
    simpl. apply nth_error_middle. }
  assert (Hh0 : findIndex_level LEVELS (highestLevelUnlocked st) = Z.of_nat (length pre)).
  { rewrite Hh. apply Z.le_antisymm.
    - exact (highest_index_upper _ _ _ _ Hnd HposU HU).
    - apply highest_index_lower; [done| |].
      + apply nth_error_Some. congruence.
      + intros j l Hj Hl. rewrite HL in Hl. rewrite nth_error_app1 in Hl by done.
        rewrite List.Forall_forall in Hpre. apply Hpre. eapply nth_error_In. exact Hl. }
  assert (HidxL := findIndex_level_nodup _ _ _ Hnd HposL).
  assert (HfL := find_level_nodup _ _ _ Hnd HposL).
  assert (Hlen : (length pre + S (length mid) < length LEVELS)%nat) by (apply nth_error_Some; congruence).
  destruct (nth_error LEVELS (S (length pre))) as [b|] eqn:Hb; [|apply nth_error_None in Hb; lia].
  exists b. unfold selectLevel. rewrite HfL, HidxL, Hh0.
  rewrite (proj2 (Z.leb_gt _ _)) by lia. rewrite (proj2 (Z.ltb_lt _ _)) by lia.
  unfold at_index. rewrite (proj2 (Z.ltb_ge _ _)) by lia. rewrite (proj2 (Z.ltb_ge _ _)) by lia.
  rewrite Nat2Z.id, HposU. replace (Z.to_nat (Z.of_nat (length pre) + 1)) with (S (length pre)) by lia.
  rewrite Hb. reflexivity.
Qed.

(** X4: no store mutation ([updateTaskProgress], [completeLevel]) moves the
    recomputed highest-unlocked level back in the catalog. *)
Theorem unlocked_frontier_monotone :
  forall (LEVELS : list Level) (up up' : UserProgress),
    NoDup (map id LEVELS) -> LEVELS <> [] -> mutation LEVELS up up' ->
    (findIndex_level LEVELS (highestLevelUnlocked_of LEVELS up) <=
     findIndex_level LEVELS (highestLevelUnlocked_of LEVELS up'))%Z.
Proof.
  intros LEVELS up up' Hnd Hne Hm.
  destruct (highest_in_catalog LEVELS up Hne) as [X [HX Hid]].
  apply In_nth_error in HX as [k Hk].
  rewrite Hid, (findIndex_level_nodup _ _ _ Hnd Hk).
  apply highest_index_lower; [done | apply nth_error_Some; congruence |].
  intros j l Hj Hl. apply (mutation_completed LEVELS up); [done|].
  apply (highest_index_below_completed LEVELS up j l Hnd); [|done].
  rewrite Hid, (findIndex_level_nodup _ _ _ Hnd Hk). lia.
Qed.


Lemma firstUncompletedIndex_found (ts : list Task) (done : gset string) :
  ((LevelView.firstUncompletedIndex ts done = -1)%Z /\ Forall (fun t => task_id t ∈ done) ts) \/
  exists k t, LevelView.firstUncompletedIndex ts done = Z.of_nat k /\ nth_error ts k = Some t /\
    (task_id t ∉ done) /\ forall j u, (j < k)%nat -> nth_error ts j = Some u -> task_id u ∈ done.
Proof.
  induction ts as [|t r IH]; simpl; [left; split; [done|constructor]|].
  destruct (bool_decide (task_id t ∈ done)) eqn:E; simpl.
  - apply bool_decide_eq_true in E.
    destruct IH as [[H1 H2]|[k [u [H1 [H2 [H3 H4]]]]]].
    + left. rewrite H1. simpl. split; [done|constructor; done].
    + right. exists (S k), u. rewrite H1. rewrite (proj2 (Z.ltb_ge _ _)) by lia.
      split; [lia|]. split; [done|]. split; [done|].
      intros [|j] v Hj Hv; simpl in Hv; [congruence|]. apply (H4 j); [lia|done].
  - apply bool_decide_eq_false in E. right. exists 0%nat, t.
    split; [done|]. split; [done|]. split; [done|]. intros; lia.
Qed.

(** X5: after the [LevelView] effect that syncs with the progress, the task
    index lies in [0 .. tasks.length], every task before it is completed,
    the current task (if any) is not completed, and the index equals the
    task count exactly when every task is completed. *)
Theorem syncWithProgress_task_index :
  forall (level : Level) (progress : LevelProgress) (st : LevelView.State),
    let i := LevelView.currentTaskIndex (LevelView.syncWithProgress level progress st) in
    (0 <= i <= Z.of_nat (length (tasks level)))%Z /\
    (forall j t, (Z.of_nat j < i)%Z -> nth_error (tasks level) j = Some t ->
       task_id t ∈ completedTasks progress) /\
    (forall t, LevelView.currentTask level (LevelView.syncWithProgress level progress st) = Some t ->
       task_id t ∉ completedTasks progress) /\
    (i = Z.of_nat (length (tasks level)) <->
       Forall (fun t => task_id t ∈ completedTasks progress) (tasks level)).
Proof.
  intros level progress st i. unfold i, LevelView.currentTask, LevelView.syncWithProgress. simpl.
  destruct (firstUncompletedIndex_found (tasks level) (completedTasks progress))
    as [[H1 H2]|[k [u [H1 [H2 [H3 H4]]]]]].
  - rewrite H1. simpl. split; [lia|]. split; [|split].
    + intros j t _ Ht. rewrite List.Forall_forall in H2. apply H2. eapply nth_error_In. exact Ht.
    + intros t Ht. unfold at_index in Ht. rewrite (proj2 (Z.ltb_ge _ _)) in Ht by lia.
      rewrite Nat2Z.id, (proj2 (nth_error_None _ _)) in Ht by lia. discriminate.
    + split; [done|intros _; done].
  - rewrite H1. rewrite (proj2 (Z.geb_le _ _)) by lia.
    assert (Hk : (k < length (tasks level))%nat) by (apply nth_error_Some; congruence).
    split; [lia|]. split; [|split].
    + intros j t Hj Ht. apply (H4 j); [lia|done].
    + intros t Ht. unfold at_index in Ht. rewrite (proj2 (Z.ltb_ge _ _)) in Ht by lia.
      rewrite Nat2Z.id in Ht. congruence.
    + split; [lia|]. intros Hall. rewrite List.Forall_forall in Hall.
      exfalso. apply H3, Hall. eapply nth_error_In. exact H2.
Qed.


(** X6: [handleSubmitCode] either does nothing observable (no effect, same
    submitting flag and index), or, from a non-submitting state with a
    passing validation, reports the task once through [onTaskComplete],
    schedules one callback, sets [isSubmitting] so that a second submission
    is ignored, and the scheduled callback clears [isSubmitting]. *)
Theorem handleSubmitCode_single_report :
  forall validate (level : Level) (progress : LevelProgress) (st st1 : LevelView.State) es,
    LevelView.handleSubmitCode validate level progress st = (st1, es) ->
    (es = [] /\ LevelView.isSubmitting st1 = LevelView.isSubmitting st /\
       LevelView.currentTaskIndex st1 = LevelView.currentTaskIndex st) \/
    (LevelView.isSubmitting st = false /\ LevelView.isSubmitting st1 = true /\
     exists task pc e,
       LevelView.currentTask level st = Some task /\
       success (validate task (LevelView.userCode st) (LevelView.projectCode st)) = true /\
       es = [LevelView.callTaskComplete (id level) (task_id task) pc; e] /\
       LevelView.handleSubmitCode validate level progress st1 = (st1, []) /\
       LevelView.isSubmitting (LevelView.fireTimeout e st1) = false).
Proof.
  intros validate level progress st st1 es H. unfold LevelView.handleSubmitCode in H.
  destruct (LevelView.currentTask level st) as [task|] eqn:Ht.
  - destruct (LevelView.isSubmitting st) eqn:Hs.
    + injection H as <- <-. left. auto.
    + destruct (success (validate task (LevelView.userCode st) (LevelView.projectCode st))) eqn:Hv.
      * injection H as <- <-. right. split; [done|]. split; [done|].
        eexists task, _, _. split; [done|]. split; [done|]. split; [reflexivity|]. split.
        -- unfold LevelView.handleSubmitCode, LevelView.currentTask in *. simpl. rewrite Ht. done.
        -- destruct (_ || _); reflexivity.
      * injection H as <- <-. left. simpl. auto.
  - injection H as <- <-. left. auto.
Qed.


Lemma updateTaskProgress_lookup (LEVELS : list Level) (lid tid : string) (pc : option ProjectCode)
    (up : UserProgress) :
  exists p', updateTaskProgress_progress LEVELS lid tid pc up !! lid = Some p' /\
    completedTasks p' = {[tid]} ∪ completedTasks (match up !! lid with Some p => p | None => freshProgress end) /\
    currentProjectCode p' = match pc with
                            | Some c => c
                            | None => currentProjectCode (match up !! lid with Some p => p | None => freshProgress end)
                            end.
Proof.
  unfold updateTaskProgress_progress. rewrite lookup_insert_eq.
  destruct (find_level LEVELS lid) as [L|]; [destruct (Nat.eqb _ _)|];
    (eexists; split; [reflexivity|]); simpl; destruct (up !! lid); simpl; auto.
Qed.

(** X8: recording the current task through [updateTaskProgress] and
    re-syncing the [LevelView] moves the task index strictly forward, and
    the view's project code becomes the submitted one. *)
Theorem submitted_task_advances :
  forall (LEVELS : list Level) (level : Level) (up : UserProgress) (st0 : LevelView.State)
         (task : Task) (pc : ProjectCode),
    let progress := match up !! id level with Some p => p | None => freshProgress end in
    LevelView.currentTask level (LevelView.syncWithProgress level progress st0) = Some task ->
    let up' := updateTaskProgress_progress LEVELS (id level) (task_id task) (Some pc) up in
    let progress' := match up' !! id level with Some p => p | None => freshProgress end in
    (LevelView.currentTaskIndex (LevelView.syncWithProgress level progress st0) <
     LevelView.currentTaskIndex (LevelView.syncWithProgress level progress' st0))%Z /\
    currentProjectCode progress' = pc.
Proof.
  intros LEVELS level up st0 task pc progress Ht up' progress'.
  destruct (updateTaskProgress_lookup LEVELS (id level) (task_id task) (Some pc) up)
    as [p' [Hl [Hc Hpc]]].
  fold up' in Hl. fold progress in Hc. unfold progress'. rewrite Hl. split; [|exact Hpc].
  unfold LevelView.syncWithProgress. simpl.
  unfold LevelView.currentTask, LevelView.syncWithProgress, at_index in Ht. simpl in Ht.
  destruct (firstUncompletedIndex_found (tasks level) (completedTasks progress))
    as [[H1 H2]|[k [u [H1 [H2 [H3 H4]]]]]].
  - exfalso. rewrite H1 in Ht. simpl in Ht.
    rewrite (proj2 (Z.ltb_ge _ _)) in Ht by lia.
    rewrite Nat2Z.id, (proj2 (nth_error_None _ _)) in Ht by lia. discriminate.
  - rewrite H1 in Ht |- *. rewrite (proj2 (Z.geb_le (Z.of_nat k) 0)) in Ht |- * by lia.
    rewrite (proj2 (Z.ltb_ge _ _)), Nat2Z.id in Ht by lia. rewrite H2 in Ht. injection Ht as ->.
    assert (Hk : (k < length (tasks level))%nat) by (apply nth_error_Some; congruence).
    destruct (firstUncompletedIndex_found (tasks level) (completedTasks p'))
      as [[G1 G2]|[k' [u' [G1 [G2 [G3 G4]]]]]].
    + rewrite G1. simpl. lia.
    + rewrite G1, (proj2 (Z.geb_le (Z.of_nat k') 0)) by lia.
      destruct (Nat.lt_trichotomy k' k) as [Hlt|[->|Hgt]]; [|exfalso|lia].
      * exfalso. apply G3. rewrite Hc. apply elem_of_union_r. apply (H4 k'); done.
      * rewrite H2 in G2. injection G2 as <-. apply G3. rewrite Hc. set_solver.
Qed.

(** X9: on a synced [LevelView] the render never shows the 'all tasks done'
    screen; it shows the level-complete screen exactly when all tasks are
    completed and the level is completed, the Loading screen exactly when
    all tasks are completed but the level is not, and otherwise the current
    task; with all tasks done, submitting does nothing. *)
Theorem render_synced :
  forall (level : Level) (progress : LevelProgress) (st : LevelView.State),
    let s := LevelView.syncWithProgress level progress st in
    let r := LevelView.render level progress s in
    let all_done := Forall (fun t => task_id t ∈ completedTasks progress) (tasks level) in
    r <> LevelView.tasksFinishedScreen /\
    (r = LevelView.levelCompleteScreen <-> all_done /\ isCompleted progress = true) /\
    (r = LevelView.loadingScreen <-> all_done /\ isCompleted progress = false) /\
    (forall t, r = LevelView.taskScreen t <-> LevelView.currentTask level s = Some t) /\
    (all_done -> forall validate, LevelView.handleSubmitCode validate level progress s = (s, [])).
Proof.
  intros level progress st s r all_done. subst s r all_done.
  unfold LevelView.render, LevelView.handleSubmitCode, LevelView.currentTask,
    LevelView.syncWithProgress, at_index. simpl.
  destruct (firstUncompletedIndex_found (tasks level) (completedTasks progress))
    as [[H1 H2]|[k [u [H1 [H2 [H3 H4]]]]]]; rewrite H1; simpl.
  - rewrite (proj2 (Z.ltb_ge (Z.of_nat (length (tasks level))) 0)), Nat2Z.id by lia.
    rewrite (proj2 (nth_error_None _ _)) by lia.
    rewrite (proj2 (Z.geb_le (Z.of_nat (length (tasks level))) (Z.of_nat (length (tasks level)))))
      by lia. simpl.
    destruct (isCompleted progress); simpl; (split; [discriminate|]);
      (split; [split; [intros; auto; discriminate|intros [_ ?]; done]|]);
      (split; [split; [intros; auto; discriminate|intros [_ ?]; done]|]);
      (split; [intros t; split; discriminate|]); intros _ validate; reflexivity.
  - assert (Hk : (k < length (tasks level))%nat) by (apply nth_error_Some; congruence).
    rewrite (proj2 (Z.geb_le (Z.of_nat k) 0)) by lia.
    rewrite (proj2 (Z.ltb_ge (Z.of_nat k) 0)), Nat2Z.id, H2 by lia.
    assert (E : (Z.of_nat k >=? Z.of_nat (length (tasks level)))%Z = false)
      by (rewrite Z.geb_leb; apply Z.leb_gt; lia).
    rewrite E. simpl.
    assert (Hnot : ~ Forall (fun t => task_id t ∈ completedTasks progress) (tasks level)).
    { intros Hall. rewrite List.Forall_forall in Hall. apply H3, Hall. eapply nth_error_In. exact H2. }
    split; [discriminate|]. split; [split; [discriminate|tauto]|].
    split; [split; [discriminate|tauto]|]. split; [|tauto].
    intros t. split; congruence.
Qed.

(** X10: applying [updateTaskProgress] (or [completeLevel]) twice with the
    same arguments gives the same store as applying it once. *)
Theorem progress_updates_idempotent :
  forall (LEVELS : list Level) (lid tid : string) (pc : option ProjectCode) (up : UserProgress),
    updateTaskProgress_progress LEVELS lid tid pc (updateTaskProgress_progress LEVELS lid tid pc up) =
      updateTaskProgress_progress LEVELS lid tid pc up /\
    completeLevel_progress lid pc (completeLevel_progress lid pc up) = completeLevel_progress lid pc up.
Proof.
  intros LEVELS lid tid pc up. split.
  - unfold updateTaskProgress_progress. rewrite lookup_insert_eq, insert_insert_eq.
    set (base := match up !! lid with Some p => p | None => mkLevelProgress ∅ emptyProjectCode false end).
    assert (E : {[tid]} ∪ ({[tid]} ∪ completedTasks base) = {[tid]} ∪ completedTasks base) by set_solver.
    f_equal. destruct (find_level LEVELS lid) as [L|].
    + destruct (Nat.eqb (size ({[tid]} ∪ completedTasks base)) (length (tasks L))) eqn:En;
        simpl; rewrite E, En; destruct pc; reflexivity.
    + simpl. rewrite E. destruct pc; reflexivity.
  - unfold completeLevel_progress. rewrite lookup_insert_eq, insert_insert_eq. simpl.
    destruct pc; reflexivity.
Qed.


Lemma string_cons_app (c : ascii) (s t : string) : String c s ++ t = String c (s ++ t).
Proof. reflexivity. Qed.

Lemma substring_0_full (s : string) : substring 0 (String.length s) s = s.
Proof. induction s as [|c s IH]; [reflexivity|]. simpl. rewrite IH. reflexivity. Qed.

Lemma includes_first_index (s p : string) :
  includes s p = match first_index s p with Some _ => true | None => false end.
Proof.
  induction s as [|c s IH]; simpl; destruct (starts_with p _); simpl; try reflexivity.
  rewrite IH. destruct (first_index s p); reflexivity.
Qed.

Lemma indexOf_0 (s p : string) :
  indexOf s p 0 = match first_index s p with Some k => Z.of_nat k | None => (-1)%Z end.
Proof.
  unfold indexOf. simpl. rewrite Nat.sub_0_r, substring_0_full.
  destruct (first_index s p); reflexivity.
Qed.

Lemma starts_with_app_l (p q s : string) : starts_with (p ++ q) s = true -> starts_with p s = true.
Proof.
  revert s. induction p as [|a p IH]; intros s; [reflexivity|].
  destruct s as [|b s]; [discriminate|]. simpl.
  intros H. apply andb_true_iff in H as [H1 H2]. rewrite H1. simpl. exact (IH s H2).
Qed.

Lemma includes_app_l (s p q : string) : includes s (p ++ q) = true -> includes s p = true.
Proof.
  induction s as [|c s IH]; simpl; intros H; apply orb_true_iff in H as [H|H].
  - rewrite (starts_with_app_l _ _ _ H). reflexivity.
  - discriminate.
  - rewrite (starts_with_app_l _ _ _ H). reflexivity.
  - rewrite (IH H). apply orb_true_r.
Qed.

Lemma includes_empty_nonempty (c : ascii) (p : string) : includes "" (String c p) = false.
Proof. reflexivity. Qed.

Lemma digit_not_c (n : Z) : Ascii.eqb "c" (ascii_of_nat (48 + Z.to_nat (n mod 10))) = false.
Proof.
  apply Ascii.eqb_neq. intros H.
  assert (Hr : (0 <= n mod 10 < 10)%Z) by (apply Z.mod_pos_bound; lia).
  assert (Hn : nat_of_ascii (ascii_of_nat (48 + Z.to_nat (n mod 10))) = 48 + Z.to_nat (n mod 10))
    by (apply nat_ascii_embedding; lia).
  rewrite <- H in Hn. change (nat_of_ascii "c") with 99 in Hn. lia.
Qed.

Lemma digits_of_no_count (fuel : nat) (n : Z) (acc : string) :
  includes (acc ++ ".") "count" = false ->
  includes (digits_of fuel n acc ++ ".") "count" = false.
Proof.
  revert n acc. induction fuel as [|f IH]; intros n acc H; simpl; [exact H|].
  assert (Hc : includes (String (ascii_of_nat (48 + Z.to_nat (n mod 10))) acc ++ ".") "count" = false).
  { rewrite string_cons_app. change (includes (String ?c ?s) ?p) with
      (starts_with p (String c s) || includes s p).
    rewrite H, orb_false_r. change (starts_with "count" (String ?c ?s)) with
      (Ascii.eqb "c" c && starts_with "ount" s). rewrite digit_not_c. reflexivity. }
  destruct (n <? 10)%Z; [exact Hc | exact (IH _ _ Hc)].
Qed.

Lemma string_of_Z_no_count (n : Z) :
  (0 <= n)%Z -> includes (string_of_Z n ++ ".") "count" = false.
Proof.
  intros Hn. unfold string_of_Z. rewrite (proj2 (Z.ltb_ge _ _)) by lia.
  apply digits_of_no_count. reflexivity.
Qed.

(** X11: task 7.1 accepts the code exactly when the comment
    [<!-- This is my main heading -->] and [<h1>] both occur and the
    comment's first occurrence comes before the first [<h1>]. *)
Theorem validate_7_1_iff (code : string) :
  success (validate_7_1 code) = true <->
  exists i j, first_index code "<!-- This is my main heading -->" = Some i /\
              first_index code "<h1>" = Some j /\ (i < j)%nat.
Proof.
  unfold validate_7_1. rewrite includes_first_index, !indexOf_0.
  destruct (first_index code "<!-- This is my main heading -->") as [i|];
    destruct (first_index code "<h1>") as [j|]; simpl.
  - destruct (Z.of_nat i <? Z.of_nat j)%Z eqn:E; simpl.
    + apply Z.ltb_lt in E. split; [intros _; exists i, j; split; [done|]; split; [done|lia]|done].
    + apply Z.ltb_ge in E. split; [discriminate|]. intros [i' [j' [H1 [H2 H3]]]].
      injection H1 as <-. injection H2 as <-. lia.
  - rewrite (proj2 (Z.ltb_ge _ _)) by lia. simpl.
    split; [discriminate|]. intros [i' [j' [_ [H _]]]]. discriminate.
  - split; [discriminate|]. intros [i' [j' [H _]]]. discriminate.
  - split; [discriminate|]. intros [i' [j' [H _]]]. discriminate.
Qed.

Section TaskValidatorProofs.

Variables (Doc Elem RegExp : Type).
Variable parseFromString : string -> Doc.
Variable querySelectorAll : Doc -> string -> string + list Elem.
Variable textContent : Elem -> string.
Variable getAttribute : Elem -> string -> option string.
Variable test : RegExp -> string -> bool.

(** X12: task 2.1 accepts the code exactly when the heading
    [<h1>Hello Guro!</h1>] occurs, the structural check of the paragraph
    passes, and the first [<p>] comes after the first [<h1>]. *)
Theorem validate_2_1_iff (code : string) :
  success (validate_2_1 Doc Elem RegExp parseFromString querySelectorAll textContent
             getAttribute test code) = true <->
  includes code "<h1>Hello Guro!</h1>" = true /\
  success (validateHTMLStructure Doc Elem RegExp parseFromString querySelectorAll textContent
             getAttribute test code
             [mkExpectation "p" (Some (PStr "This is my first paragraph.")) None None
                (Some "body")]) = true /\
  exists i j, first_index code "<p>" = Some i /\ first_index code "<h1>" = Some j /\ (j <= i)%nat.
Proof.
  unfold validate_2_1.
  destruct (includes code "<h1>Hello Guro!</h1>") eqn:Eh; simpl;
    [|split; [discriminate|intros [H _]; discriminate]].
  assert (Hh1 : includes code "<h1>" = true).
  { apply (includes_app_l _ _ "Hello Guro!</h1>"). exact Eh. }
  rewrite includes_first_index in Hh1.
  destruct (success (validateHTMLStructure _ _ _ _ _ _ _ _ code _)) eqn:Es; simpl;
    [|split; [rewrite Es; discriminate|intros [_ [H _]]; congruence]].
  rewrite !indexOf_0.
  destruct (first_index code "<h1>") as [j|]; [|discriminate].
  destruct (first_index code "<p>") as [i|].
  - destruct (Z.of_nat i <? Z.of_nat j)%Z eqn:E; simpl.
    + apply Z.ltb_lt in E. split; [discriminate|]. intros [_ [_ [i' [j' [H1 [H2 H3]]]]]].
      injection H1 as <-. injection H2 as <-. lia.
    + apply Z.ltb_ge in E. split; [|done]. intros _. split; [done|]. split; [done|].
      exists i, j. split; [done|]. split; [done|]. lia.
  - rewrite (proj2 (Z.ltb_lt _ _)) by lia. simpl. split; [discriminate|].
    intros [_ [_ [i' [j' [H1 _]]]]]. discriminate.
Qed.

(** X13: in task 4.1, when the document has a [ul] and the number of
    [ul > li] items is not one, the answer is the structural check's count
    failure; its message never contains ['count'], so the refinement branch
    of the task (expecting two items) is never taken. *)
Theorem validate_4_1_count_refinement_unreached (code : string) (u : Elem) (us lis : list Elem) :
  querySelectorAll (parseFromString code) "ul" = inr (u :: us) ->
  querySelectorAll (parseFromString code) "ul > li" = inr lis ->
  length lis <> 1%nat ->
  validate_4_1 Doc Elem RegExp parseFromString querySelectorAll textContent getAttribute test code =
    inr (failure ("Expected 1 <li> element(s) inside ul, but found " ++
                  string_of_Z (Z.of_nat (length lis)) ++ ".")).
Proof.
  intros Hul Hli Hn.
  set (el_ul := mkExpectation "ul" None None None None : Expectation RegExp).
  set (el_apple := mkExpectation "li" (Some (PStr "Apple")) None (Some 1%Z) (Some "ul")
                   : Expectation RegExp).
  set (msg := "Expected 1 <li> element(s) inside ul, but found " ++
              string_of_Z (Z.of_nat (length lis)) ++ ".").
  assert (E1 : check_el Doc Elem RegExp querySelectorAll textContent getAttribute test
                 (parseFromString code) el_ul = inr None).
  { unfold check_el. change (selector_of RegExp el_ul) with "ul". rewrite Hul. reflexivity. }
  assert (E2 : check_el Doc Elem RegExp querySelectorAll textContent getAttribute test
                 (parseFromString code) el_apple = inr (Some msg)).
  { unfold check_el. change (selector_of RegExp el_apple) with "ul > li". rewrite Hli.
    unfold check_elements. cbn [count el_apple].
    rewrite (proj2 (Z.eqb_neq (Z.of_nat (length lis)) 1)) by lia. reflexivity. }
  assert (Hres : validateHTMLStructure Doc Elem RegExp parseFromString querySelectorAll
                   textContent getAttribute test code (task_4_1_expectations RegExp) = failure msg).
  { unfold validateHTMLStructure, task_4_1_expectations. fold el_ul el_apple.
    simpl html_loop. rewrite E1, E2. reflexivity. }
  assert (Hc : includes msg "count" = false)
    by exact (string_of_Z_no_count _ (Nat2Z.is_nonneg _)).
  unfold validate_4_1. rewrite Hres. cbn [message failure success negb andb]. rewrite Hc.
  reflexivity.
Qed.

End TaskValidatorProofs.

Section HTMLOutcome.

Variables (Doc Elem RegExp : Type).
Variable parseFromString : string -> Doc.
Variable querySelectorAll : Doc -> string -> string + list Elem.
Variable textContent : Elem -> string.
Variable getAttribute : Elem -> string -> option string.
Variable test : RegExp -> string -> bool.

Lemma html_loop_all_pass (doc : Doc) (exps : list (Expectation RegExp)) :
  Forall (fun el => check_el Doc Elem RegExp querySelectorAll textContent getAttribute test
                      doc el = inr None) exps ->
  html_loop Doc Elem RegExp querySelectorAll textContent getAttribute test doc exps =
    inr (mkValidationResult true "HTML structure looks good!" None).
Proof. induction 1 as [|el r Hel Hr IH]; simpl; [reflexivity|]. rewrite Hel. exact IH. Qed.

Lemma html_loop_first (doc : Doc) (pre post : list (Expectation RegExp)) (el : Expectation RegExp) :
  Forall (fun el => check_el Doc Elem RegExp querySelectorAll textContent getAttribute test
                      doc el = inr None) pre ->
  html_loop Doc Elem RegExp querySelectorAll textContent getAttribute test doc (pre ++ el :: post) =
    match check_el Doc Elem RegExp querySelectorAll textContent getAttribute test doc el with
    | inl e => inl e
    | inr (Some m) => inr (failure m)
    | inr None => html_loop Doc Elem RegExp querySelectorAll textContent getAttribute test doc post
    end.
Proof. induction 1 as [|el0 r Hel Hr IH]; simpl; [reflexivity|]. rewrite Hel. exact IH. Qed.

Lemma html_loop_success (doc : Doc) (exps : list (Expectation RegExp)) (r : ValidationResult) :
  html_loop Doc Elem RegExp querySelectorAll textContent getAttribute test doc exps = inr r ->
  success r = true ->
  Forall (fun el => check_el Doc Elem RegExp querySelectorAll textContent getAttribute test
                      doc el = inr None) exps.
Proof.
  induction exps as [|el rest IH]; simpl; intros H Hs; [constructor|].
  destruct (check_el _ _ _ _ _ _ _ doc el) as [e|[m|]] eqn:E; [discriminate| |].
  - injection H as <-. discriminate.
  - constructor; [exact E | exact (IH H Hs)].
Qed.

(** X14: [validateHTMLStructure] succeeds exactly when every expectation
    passes, with the message 'HTML structure looks good!'; otherwise it
    returns the failure of the first failing expectation, or
    'Error parsing HTML: ' and the error when its query throws. *)
Theorem validateHTMLStructure_outcome (code : string) (exps : list (Expectation RegExp)) :
  let doc := parseFromString code in
  let V := validateHTMLStructure Doc Elem RegExp parseFromString querySelectorAll textContent
             getAttribute test code exps in
  let passes := fun el => check_el Doc Elem RegExp querySelectorAll textContent getAttribute test
                            doc el = inr None in
  (success V = true <-> Forall passes exps) /\
  (Forall passes exps -> V = mkValidationResult true "HTML structure looks good!" None) /\
  (forall pre el post, exps = (pre ++ el :: post)%list -> Forall passes pre ->
     (forall m, check_el Doc Elem RegExp querySelectorAll textContent getAttribute test doc el =
                  inr (Some m) -> V = failure m) /\
     (forall e, check_el Doc Elem RegExp querySelectorAll textContent getAttribute test doc el =
                  inl e -> V = failure ("Error parsing HTML: " ++ e))).
Proof.
  intros doc V passes.
  assert (Hall : Forall passes exps -> V = mkValidationResult true "HTML structure looks good!" None).
  { intros H. unfold V, validateHTMLStructure. fold doc. rewrite (html_loop_all_pass doc exps H).
    reflexivity. }
  split; [|split; [exact Hall|]].
  - split; [|intros H; rewrite (Hall H); reflexivity].
    unfold V, validateHTMLStructure. fold doc.
    destruct (html_loop _ _ _ _ _ _ _ doc exps) as [e|r] eqn:E; [discriminate|].
    intros Hs. exact (html_loop_success doc exps r E Hs).
  - intros pre el post -> Hpre. unfold V, validateHTMLStructure. fold doc.
    rewrite (html_loop_first doc pre post el Hpre). split.
    + intros m Hm. rewrite Hm. reflexivity.
    + intros e He. rewrite He. reflexivity.
Qed.

(** X15: when [validateHTMLStructure] succeeds, each expectation's query
    returns elements whose number equals its [count] if given, which are
    not empty when the count is falsy and the tag is not ['!--'], and whose
    first element passes the text and attribute checks. *)
Theorem validateHTMLStructure_success_guarantees (code : string) (exps : list (Expectation RegExp))
    (el : Expectation RegExp) :
  success (validateHTMLStructure Doc Elem RegExp parseFromString querySelectorAll textContent
             getAttribute test code exps) = true ->
  In el exps ->
  exists elements,
    querySelectorAll (parseFromString code) (selector_of RegExp el) = inr elements /\
    (forall c, count RegExp el = Some c -> Z.of_nat (length elements) = c) /\
    (count_falsy RegExp el = true -> tag RegExp el <> "!--" -> elements <> []) /\
    (forall e1 rest, elements = e1 :: rest ->
       check_text Elem RegExp textContent test el e1 = None /\
       forall attrs, attributes RegExp el = Some attrs ->
         check_attributes Elem RegExp getAttribute test el e1 attrs = None).
Proof.
  intros Hs Hin. unfold validateHTMLStructure in Hs.
  destruct (html_loop _ _ _ _ _ _ _ _ exps) as [e|r] eqn:E; [discriminate|].
  pose proof (html_loop_success _ exps r E Hs) as Hall.
  rewrite List.Forall_forall in Hall. specialize (Hall el Hin).
  unfold check_el in Hall.
  destruct (querySelectorAll (parseFromString code) (selector_of RegExp el)) as [e|elements];
    [discriminate|].
  injection Hall as Hc. exists elements. split; [reflexivity|].
  unfold check_elements, first_failure in Hc.
  destruct (count RegExp el) as [c|] eqn:Ecount.
  - destruct (negb (Z.of_nat (length elements) =? c)%Z) eqn:Eq; [discriminate|].
    apply negb_false_iff, Z.eqb_eq in Eq.
    split; [intros c' Hc'; injection Hc' as <-; exact Eq|].
    destruct (count_falsy RegExp el && _ && _) eqn:Ez; [discriminate|].
    split.
    + intros Hf Ht ->. rewrite Hf in Ez. simpl in Ez.
      destruct (String.eqb (tag RegExp el) "!--") eqn:Et;
        [apply String.eqb_eq in Et; contradiction|discriminate].
    + intros e1 rest ->. destruct (check_text _ _ _ _ el e1); [discriminate|].
      split; [reflexivity|]. intros attrs Ha. rewrite Ha in Hc. exact Hc.
  - split; [discriminate|].
    destruct (count_falsy RegExp el && _ && _) eqn:Ez; [discriminate|].
    split.
    + intros Hf Ht ->. rewrite Hf in Ez. simpl in Ez.
      destruct (String.eqb (tag RegExp el) "!--") eqn:Et;
        [apply String.eqb_eq in Et; contradiction|discriminate].
    + intros e1 rest ->. destruct (check_text _ _ _ _ el e1); [discriminate|].
      split; [reflexivity|]. intros attrs Ha. rewrite Ha in Hc. exact Hc.
Qed.

(** X16: without a [count], an expectation is checked on the first element
    the query returns only: its verdict is the text check of that element,
    then its attribute checks. *)
Theorem check_el_first_element_only (doc : Doc) (el : Expectation RegExp) (e1 : Elem)
    (rest : list Elem) :
  count RegExp el = None ->
  querySelectorAll doc (selector_of RegExp el) = inr (e1 :: rest) ->
  check_el Doc Elem RegExp querySelectorAll textContent getAttribute test doc el =
    inr (first_failure (check_text Elem RegExp textContent test el e1)
           (match attributes RegExp el with
            | Some attrs => check_attributes Elem RegExp getAttribute test el e1 attrs
            | None => None
            end)).
Proof.
  intros Hc Hq. unfold check_el. rewrite Hq. unfold check_elements. rewrite Hc.
  unfold count_falsy. rewrite Hc. simpl. reflexivity.
Qed.

End HTMLOutcome.


Lemma str_length_app (a b : string) : String.length (a ++ b) = String.length a + String.length b.
Proof. induction a as [|c a IH]; simpl; [reflexivity|]. rewrite IH. reflexivity. Qed.

Lemma substring_app_skip (a s : string) (m : nat) :
  substring (String.length a) m (a ++ s) = substring 0 m s.
Proof. induction a as [|c a IH]; [reflexivity|]. exact IH. Qed.

Lemma substring_prefix (b c : string) : substring 0 (String.length b) (b ++ c) = b.
Proof. induction b as [|x b IH]; simpl; [destruct c; reflexivity|]. rewrite IH. reflexivity. Qed.

Lemma indexOf_from (a s p : string) :
  indexOf (a ++ s) p (Z.of_nat (String.length a)) =
    match first_index s p with
    | Some k => Z.of_nat (String.length a + k)
    | None => (-1)%Z
    end.
Proof.
  unfold indexOf. rewrite Z.max_r by lia. rewrite Nat2Z.id, str_length_app.
  replace (String.length a + String.length s - String.length a) with (String.length s) by lia.
  rewrite substring_app_skip, substring_0_full. reflexivity.
Qed.

Lemma first_index_char (x z : string) (ch : ascii) :
  includes x (String ch "") = false ->
  first_index (x ++ String ch z) (String ch "") = Some (String.length x).
Proof.
  induction x as [|c x IH]; intros H.
  - simpl. rewrite Ascii.eqb_refl. reflexivity.
  - change (includes (String c x) (String ch "")) with
      (starts_with (String ch "") (String c x) || includes x (String ch "")) in H.
    apply orb_false_iff in H as [H1 H2].
    change (first_index (String c (x ++ String ch z)) (String ch "")) with
      (if starts_with (String ch "") (String c (x ++ String ch z)) then Some 0
       else option_map S (first_index (x ++ String ch z) (String ch ""))).
    simpl in H1 |- *. rewrite H1, (IH H2). reflexivity.
Qed.

Lemma up_to_semicolon_no_semicolon (s : string) : includes (up_to_semicolon s) ";" = false.
Proof.
  induction s as [|c s IH]; [reflexivity|]. simpl.
  destruct (Ascii.eqb c ";") eqn:E; [reflexivity|].
  change (includes (String c (up_to_semicolon s)) ";") with
    ((Ascii.eqb ";" c && true) || includes (up_to_semicolon s) ";").
  rewrite IH, Ascii.eqb_sym, E. reflexivity.
Qed.

Lemma span_space_last (s w r : string) (c : ascii) :
  span_space s = (w, r) -> last_char w = Some c -> is_space c = true.
Proof.
  revert w r. induction s as [|x s IH]; intros w r H Hl; simpl in H.
  - injection H as <- <-. discriminate.
  - destruct (is_space x) eqn:Ex.
    + destruct (span_space s) as [w' r'] eqn:E. injection H as <- <-.
      destruct w' as [|y w'].
      * simpl in Hl. injection Hl as <-. exact Ex.
      * apply (IH (String y w') r'); [reflexivity|exact Hl].
    + injection H as <- <-. discriminate.
Qed.

Lemma match_after_name_capture (s cap : string) :
  match_after_name s = Some cap -> cap <> "" /\ includes cap ";" = false.
Proof.
  unfold match_after_name. destruct (span_space s) as [w1 r1].
  destruct r1 as [|c r2]; [discriminate|].
  destruct (Ascii.eqb c ":"); [|discriminate].
  destruct (span_space r2) as [w2 r3] eqn:E2.
  destruct (String.eqb (up_to_semicolon r3) "") eqn:Ee.
  - destruct (last_char w2) as [c'|] eqn:El; [|discriminate].
    intros H. injection H as <-. split; [discriminate|].
    pose proof (span_space_last _ _ _ _ E2 El) as Hs.
    change (includes (String c' "") ";") with ((Ascii.eqb ";" c' && true) || false).
    destruct (Ascii.eqb ";" c') eqn:Ec; [|reflexivity].
    apply Ascii.eqb_eq in Ec. subst c'. discriminate.
  - intros H. injection H as <-. split.
    + intros He. rewrite He in Ee. discriminate.
    + apply up_to_semicolon_no_semicolon.
Qed.

Lemma starts_with_split (p s : string) :
  starts_with p s = true ->
  s = p ++ substring (String.length p) (String.length s - String.length p) s.
Proof.
  revert s. induction p as [|a p IH]; intros s H.
  - simpl. rewrite Nat.sub_0_r, substring_0_full. reflexivity.
  - destruct s as [|b s]; [discriminate|]. simpl in H.
    apply andb_true_iff in H as [H1 H2]. apply Ascii.eqb_eq in H1. subst b.
    simpl. rewrite string_cons_app. f_equal. exact (IH s H2).
Qed.

(** X17: when the property pattern of [validateCSSProperties] matches, the
    content contains the property name followed by a captured value that is
    not empty and holds no [;]; the name may be the end of a longer name. *)
Theorem match_prop_sound (prop content cap : string) :
  match_prop prop content = Some cap ->
  exists pre post, content = pre ++ prop ++ post /\ match_after_name post = Some cap /\
    cap <> "" /\ includes cap ";" = false.
Proof.
  intros H. cut (exists pre post, content = pre ++ prop ++ post /\ match_after_name post = Some cap).
  { intros [pre [post [H1 H2]]]. exists pre, post. split; [done|]. split; [done|].
    exact (match_after_name_capture _ _ H2). }
  revert H. induction content as [|c content IH]; intros H.
  - simpl in H. destruct (starts_with prop "") eqn:Es; [|discriminate].
    destruct (match_after_name _) as [cap'|] eqn:Em; [|discriminate].
    injection H as <-. exists "", "". split.
    + destruct prop; [reflexivity|discriminate].
    + destruct prop; [exact Em|discriminate].
  - change (match_prop prop (String c content)) with
      (match (if starts_with prop (String c content)
              then match_after_name (substring (String.length prop)
                     (String.length (String c content) - String.length prop) (String c content))
              else None) with
       | Some cap => Some cap
       | None => match_prop prop content
       end) in H.
    destruct (starts_with prop (String c content)) eqn:Es.
    + destruct (match_after_name _) as [cap'|] eqn:Em.
      * injection H as <-. exists "", (substring (String.length prop)
          (String.length (String c content) - String.length prop) (String c content)).
        split; [exact (starts_with_split _ _ Es)|exact Em].
      * destruct (IH H) as [pre [post [H1 H2]]]. exists (String c pre), post.
        rewrite H1. split; [reflexivity|exact H2].
    + destruct (IH H) as [pre [post [H1 H2]]]. exists (String c pre), post.
      rewrite H1. split; [reflexivity|exact H2].
Qed.

(** X18: the rule checked for a selector is the block after the first
    occurrence of the selector text in the code (a substring, possibly
    inside another selector), up to the first closing brace. *)
Theorem check_style_first_occurrence (RegExp : Type) (test : RegExp -> string -> bool)
    (source : RegExp -> string) (pre sel mid body rest : string)
    (props : list (string * Pattern RegExp)) :
  first_index (pre ++ sel ++ mid ++ "{" ++ body ++ "}" ++ rest) sel = Some (String.length pre) ->
  includes (sel ++ mid) "{" = false ->
  includes body "}" = false ->
  check_style RegExp test source (pre ++ sel ++ mid ++ "{" ++ body ++ "}" ++ rest)
    (mkStyleExpectation sel props) =
  check_properties RegExp test source sel body props.
Proof.
  intros Hsel Hmid Hbody. unfold check_style. cbn [selector properties].
  rewrite indexOf_0, Hsel.
  rewrite (proj2 (Z.eqb_neq _ _)) by lia.
  assert (Hs : indexOf (pre ++ sel ++ mid ++ "{" ++ body ++ "}" ++ rest) "{"
                 (Z.of_nat (String.length pre)) =
               Z.of_nat (String.length pre + String.length (sel ++ mid))).
  { rewrite indexOf_from.
    replace (sel ++ mid ++ "{" ++ body ++ "}" ++ rest)
      with ((sel ++ mid) ++ String "{" (body ++ "}" ++ rest)) by (rewrite string_app_assoc; reflexivity).
    rewrite (first_index_char _ _ _ Hmid). reflexivity. }
  rewrite Hs.
  set (A := pre ++ sel ++ mid).
  assert (Hcode : pre ++ sel ++ mid ++ "{" ++ body ++ "}" ++ rest =
                  A ++ String "{" (body ++ String "}" rest)).
  { unfold A. rewrite !string_app_assoc. reflexivity. }
  assert (HA : String.length pre + String.length (sel ++ mid) = String.length A).
  { unfold A. rewrite !str_length_app. lia. }
  rewrite Hcode, HA.
  assert (He : indexOf (A ++ String "{" (body ++ String "}" rest)) "}" (Z.of_nat (String.length A)) =
               Z.of_nat (String.length A + S (String.length body))).
  { rewrite indexOf_from.
    change (first_index (String "{" (body ++ String "}" rest)) "}") with
      (if starts_with "}" (String "{" (body ++ String "}" rest)) then Some 0
       else option_map S (first_index (body ++ String "}" rest) "}")).
    change (starts_with "}" (String "{" (body ++ String "}" rest))) with false.
    rewrite (first_index_char _ _ _ Hbody). reflexivity. }
  rewrite He.
  rewrite (proj2 (Z.eqb_neq _ _)) by lia. rewrite (proj2 (Z.eqb_neq (Z.of_nat _) _)) by lia.
  simpl orb. cbv iota beta.
  unfold js_substring.
  rewrite Z.min_l, Z.max_r by lia.
  replace (Z.to_nat (Z.of_nat (String.length A) + 1)) with (String.length (A ++ "{")).
  2:{ rewrite str_length_app. simpl. lia. }
  replace (Z.to_nat (Z.of_nat (String.length A + S (String.length body))) - String.length (A ++ "{"))
    with (String.length body).
  2:{ rewrite str_length_app. simpl. lia. }
  replace (A ++ String "{" (body ++ String "}" rest)) with ((A ++ "{") ++ (body ++ String "}" rest))
    by (rewrite string_app_assoc; reflexivity).
  rewrite substring_app_skip, substring_prefix. reflexivity.
Qed.

Lemma includes_nonempty_truthy (pc : ProjectCode) (c : ascii) (p : string) :
  includes (html_text pc) (String c p) = true -> truthy_str (html pc) = true.
Proof.
  unfold html_text, truthy_str. destruct (html pc) as [h|]; [|discriminate].
  destruct h; [discriminate|reflexivity].
Qed.

(** X19: task 12.1 refuses HTML without the single-quoted
    [class='my-div'] (so [class="my-div"] is refused) and otherwise is the
    CSS check of width and height; task 9.1 accepts either quoting of
    [class=highlight] and then is the CSS check of the background colour. *)
Theorem class_attribute_guards :
  (forall code pc, includes (html_text pc) "class='my-div'" = false ->
     validate_12_1 code pc = failure "Add a div with class='my-div' to your HTML.") /\
  (forall code pc, includes (html_text pc) "class='my-div'" = true ->
     validate_12_1 code pc =
       validateCSSProperties Empty_set no_regexp_test no_regexp_source code
         [mkStyleExpectation ".my-div" [("width", PStr "200px"); ("height", PStr "100px")]]) /\
  (forall code pc, includes (html_text pc) "class='highlight'" = true \/
                   includes (html_text pc) ("class=" ++ dq ++ "highlight" ++ dq) = true ->
     validate_9_1 code pc =
       validateCSSProperties Empty_set no_regexp_test no_regexp_source code
         [mkStyleExpectation ".highlight" [("background-color", PStr "yellow")]]).
Proof.
  split; [|split].
  - intros code pc H. unfold validate_12_1. rewrite H, orb_true_r. reflexivity.
  - intros code pc H. unfold validate_12_1.
    rewrite (includes_nonempty_truthy _ _ _ H), H. reflexivity.
  - intros code pc [H|H]; unfold validate_9_1;
      rewrite (includes_nonempty_truthy _ _ _ H), H; simpl;
      [reflexivity|rewrite andb_false_r; reflexivity].
Qed.





(* ================================================================== *)
(** ** Examples *)
(* ================================================================== *)

Lemma selectLevel_throws_iff_witness :
  catalogABC <> [] /\
  selectLevel catalogABC "C" (mkAppState level_selector None ∅ "Z") = None /\
  selectLevel catalogABC "C" (recomputeHighest catalogABC (mkAppState level_selector None ∅ "Z")) <> None.
Proof.
  split; [discriminate|]. split; [vm_compute; reflexivity|].
  apply (proj2 selectLevel_throws_iff). discriminate.
Defined.

Lemma completeLevel_then_next_level_opens_witness :
  exists st2, selectLevel catalogABC "B"
    (recomputeHighest catalogABC (completeLevel "A" None (mkAppState level_view (Some "A") ∅ "A"))) =
    Some (st2, None) /\
    shownLevelView catalogABC st2 = Some (mkLevel "B" "Level B" [mkTask "B.1"] (Some "C"), freshProgress).
Proof.
  destruct (completeLevel_then_next_level_opens catalogABC [] [mkLevel "C" "Level C" [mkTask "C.1"] None]
              (mkLevel "A" "Level A" [mkTask "A.1"] (Some "B")) (mkLevel "B" "Level B" [mkTask "B.1"] (Some "C"))
              None (mkAppState level_view (Some "A") ∅ "A"))
    as [_ [_ [_ [st2 [H1 H2]]]]].
  - reflexivity.
  - apply (bool_decide_unpack _). vm_compute. reflexivity.
  - constructor.
  - discriminate.
  - exists st2. split; [exact H1|exact H2].
Defined.

Lemma completed_level_review_refused_witness :
  exists b, selectLevel catalogABC "B"
    (mkAppState level_selector None {[ "B" := doneEntry ]}
       (highestLevelUnlocked_of catalogABC {[ "B" := doneEntry ]})) =
    Some (mkAppState level_selector None {[ "B" := doneEntry ]}
            (highestLevelUnlocked_of catalogABC {[ "B" := doneEntry ]}),
          Some (locked_message (mkLevel "A" "Level A" [mkTask "A.1"] (Some "B")) b)).
Proof.
  destruct (completed_level_review_refused catalogABC [] []
              [mkLevel "C" "Level C" [mkTask "C.1"] None]
              (mkLevel "A" "Level A" [mkTask "A.1"] (Some "B"))
              (mkLevel "B" "Level B" [mkTask "B.1"] (Some "C"))
              (mkAppState level_selector None {[ "B" := doneEntry ]}
                 (highestLevelUnlocked_of catalogABC {[ "B" := doneEntry ]})))
    as [_ H].
  - reflexivity.
  - apply (bool_decide_unpack _). vm_compute. reflexivity.
  - constructor.
  - vm_compute. reflexivity.
  - vm_compute. reflexivity.
  - reflexivity.
  - exact H.
Defined.

Lemma unlocked_frontier_monotone_witness :
  (findIndex_level catalogABC (highestLevelUnlocked_of catalogABC ∅) <=
   findIndex_level catalogABC (highestLevelUnlocked_of catalogABC (completeLevel_progress "A" None ∅)))%Z.
Proof.
  apply unlocked_frontier_monotone.
  - apply (bool_decide_unpack _). vm_compute. reflexivity.
  - discriminate.
  - apply mut_level.
Defined.

Lemma syncWithProgress_task_index_witness :
  LevelView.currentTask levelAB (LevelView.syncWithProgress levelAB progressA1 (LevelView.init progressA1)) =
    Some (mkTask "A.2") /\
  task_id (mkTask "A.2") ∉ completedTasks progressA1.
Proof.
  split; [vm_compute; reflexivity|].
  apply (proj1 (proj2 (proj2 (syncWithProgress_task_index levelAB progressA1 (LevelView.init progressA1))))).
  vm_compute. reflexivity.
Defined.

Lemma handleSubmitCode_single_report_witness :
  let st1 := fst (LevelView.handleSubmitCode accept_all levelAB progressA1
                   (LevelView.syncWithProgress levelAB progressA1 (LevelView.init progressA1))) in
  LevelView.handleSubmitCode accept_all levelAB progressA1 st1 = (st1, []).
Proof.
  intros st1.
  destruct (handleSubmitCode_single_report accept_all levelAB progressA1
              (LevelView.syncWithProgress levelAB progressA1 (LevelView.init progressA1)) st1
              (snd (LevelView.handleSubmitCode accept_all levelAB progressA1
                   (LevelView.syncWithProgress levelAB progressA1 (LevelView.init progressA1))))
              eq_refl)
    as [[Hes _]|[_ [_ [task [pc [e [_ [_ [_ [H _]]]]]]]]]].
  - vm_compute in Hes. discriminate.
  - exact H.
Defined.


Lemma submitted_task_advances_witness :
  (LevelView.currentTaskIndex (LevelView.syncWithProgress levelAB freshProgress (LevelView.init freshProgress)) <
   LevelView.currentTaskIndex
     (LevelView.syncWithProgress levelAB
        (match updateTaskProgress_progress [levelAB] "A" "A.1" (Some emptyProjectCode) ∅ !! "A" with
         | Some p => p
         | None => freshProgress
         end) (LevelView.init freshProgress)))%Z.
Proof.
  refine (proj1 (submitted_task_advances [levelAB] levelAB ∅ (LevelView.init freshProgress)
                   (mkTask "A.1") emptyProjectCode _)).
  vm_compute. reflexivity.
Defined.

Lemma render_synced_witness :
  let p := mkLevelProgress {[ "A.1"; "A.2" ]} emptyProjectCode false in
  LevelView.render levelAB p (LevelView.syncWithProgress levelAB p (LevelView.init p)) =
    LevelView.loadingScreen.
Proof.
  intros p. apply (proj2 (proj1 (proj2 (proj2 (render_synced levelAB p (LevelView.init p)))))).
  split; [|reflexivity]. apply (bool_decide_unpack _). vm_compute. reflexivity.
Defined.

Lemma validate_4_1_count_refinement_unreached_witness :
  validate_4_1 BrowserDOM.node BrowserDOM.node Empty_set BrowserDOM.parseFromString
    BrowserDOM.querySelectorAll BrowserDOM.textContent (fun _ _ => None) no_regexp_test
    "<ul><li>Apple</li><li>Banana</li></ul>" =
  inr (failure "Expected 1 <li> element(s) inside ul, but found 2.").
Proof.
  rewrite (validate_4_1_count_refinement_unreached BrowserDOM.node BrowserDOM.node Empty_set
             BrowserDOM.parseFromString BrowserDOM.querySelectorAll BrowserDOM.textContent
             (fun _ _ => None) no_regexp_test "<ul><li>Apple</li><li>Banana</li></ul>"
             (hd (BrowserDOM.Text "") (query_items "<ul><li>Apple</li><li>Banana</li></ul>" "ul"))
             (tl (query_items "<ul><li>Apple</li><li>Banana</li></ul>" "ul"))
             (query_items "<ul><li>Apple</li><li>Banana</li></ul>" "ul > li")).
  - vm_compute. reflexivity.
  - vm_compute. reflexivity.
  - vm_compute. reflexivity.
  - vm_compute. lia.
Defined.

Lemma validateHTMLStructure_outcome_witness :
  BrowserDOM.validate "<p>a</p><p>Hello</p>"
    [mkExpectation "p" (Some (PStr "Hello")) None None None] =
  failure ("<p> element should contain text: " ++ dq ++ "Hello" ++ dq ++ ". Found: " ++
           dq ++ "a" ++ dq).
Proof.
  apply (proj1 (proj2 (proj2 (validateHTMLStructure_outcome BrowserDOM.node BrowserDOM.node Empty_set
           BrowserDOM.parseFromString BrowserDOM.querySelectorAll BrowserDOM.textContent
           (fun _ _ => None) (fun r _ => match r with end) "<p>a</p><p>Hello</p>"
           [mkExpectation "p" (Some (PStr "Hello")) None None None]))
           [] (mkExpectation "p" (Some (PStr "Hello")) None None None) [] eq_refl (List.Forall_nil _))).
  vm_compute. reflexivity.
Defined.

Lemma validateHTMLStructure_success_guarantees_witness :
  exists elements,
    BrowserDOM.querySelectorAll (BrowserDOM.parseFromString "<p>x</p><p>y</p>") "p" = inr elements /\
    Z.of_nat (length elements) = 2%Z.
Proof.
  destruct (validateHTMLStructure_success_guarantees BrowserDOM.node BrowserDOM.node Empty_set
              BrowserDOM.parseFromString BrowserDOM.querySelectorAll BrowserDOM.textContent
              (fun _ _ => None) (fun r _ => match r with end) "<p>x</p><p>y</p>"
              [mkExpectation "p" None None (Some 2%Z) None]
              (mkExpectation "p" None None (Some 2%Z) None))
    as [elements [H1 [H2 _]]].
  - vm_compute. reflexivity.
  - left. reflexivity.
  - exists elements. split; [exact H1|]. apply H2. reflexivity.
Defined.

Lemma check_el_first_element_only_witness :
  check_el BrowserDOM.node BrowserDOM.node Empty_set BrowserDOM.querySelectorAll
    BrowserDOM.textContent (fun _ _ => None) no_regexp_test
    (BrowserDOM.parseFromString "<p>a</p><p>Hello</p>")
    (mkExpectation "p" (Some (PStr "Hello")) None None None) =
  inr (Some ("<p> element should contain text: " ++ dq ++ "Hello" ++ dq ++ ". Found: " ++
             dq ++ "a" ++ dq)).
Proof.
  rewrite (check_el_first_element_only BrowserDOM.node BrowserDOM.node Empty_set
             BrowserDOM.querySelectorAll BrowserDOM.textContent (fun _ _ => None) no_regexp_test
             (BrowserDOM.parseFromString "<p>a</p><p>Hello</p>")
             (mkExpectation "p" (Some (PStr "Hello")) None None None)
             (hd (BrowserDOM.Text "") (query_items "<p>a</p><p>Hello</p>" "p"))
             (tl (query_items "<p>a</p><p>Hello</p>" "p"))).
  - vm_compute. reflexivity.
  - reflexivity.
  - vm_compute. reflexivity.
Defined.

Lemma match_prop_sound_witness :
  exists pre post, "background-color: red;" = pre ++ "color" ++ post /\
    match_after_name post = Some "red".
Proof.
  destruct (match_prop_sound "color" "background-color: red;" "red") as [pre [post [H1 [H2 _]]]].
  - vm_compute. reflexivity.
  - exists pre, post. split; [exact H1|exact H2].
Defined.

Lemma check_style_first_occurrence_witness :
  check_style Empty_set no_regexp_test no_regexp_source "span { color: red; }"
    (mkStyleExpectation "p" [("color", PStr "red")]) = None.
Proof.
  refine (eq_trans (check_style_first_occurrence Empty_set no_regexp_test no_regexp_source
                      "s" "p" "an " " color: red; " "" [("color", PStr "red")] _ _ _) _).
  - vm_compute. reflexivity.
  - vm_compute. reflexivity.
  - vm_compute. reflexivity.
  - vm_compute. reflexivity.
Defined.

Lemma class_attribute_guards_witness :
  let pc := mkProjectCode (Some ("<div class=" ++ dq ++ "my-div" ++ dq ++ "></div>")) None None in
  validate_12_1 ".my-div { width: 200px; height: 100px; }" pc =
    failure "Add a div with class='my-div' to your HTML.".
Proof.
  intros pc. apply (proj1 class_attribute_guards). vm_compute. reflexivity.
Defined.


